(** * Blue/green log watcher: a shallow embedding of [watcher.py]

    The watcher follows an nginx access log, one JSON object per line,
    and raises Slack alerts on (a) a change of the pool that serves
    traffic and (b) an error rate above a threshold over a sliding
    window of requests.

    Conventions of the embedding.
    - Strings are [string] (ASCII text); Python's [lower], [strip],
      [split], [in] and [startswith] are written out below.
    - A JSON field value is a [PyVal]: [None], an integer or a string
      (the scalars an access log carries).  On these three kinds
      structural equality is Python's [==].  Booleans, floats and
      nested values are left out.
    - A log entry (a Python dict) is a [gmap string PyVal]; a line that
      parses to something other than an object is left out.
    - Clock readings ([time.time()]) and the error rate are rationals
      [Q]: exact arithmetic stands for binary64.
    - Effects are explicit: the watcher object, the number of clock
      readings and HTTP posts made so far, and the trace of interactions
      with the outside (clock, Slack) are threaded through every call;
      the outside itself is an [Env] of oracles. *)

From Stdlib Require Import ZArith QArith Lia Lqa Bool Ascii String DecimalString Sorted.
From Stdlib Require Import DecimalPos DecimalZ.
From stdpp Require Import base option list strings gmap.

Local Open Scope string_scope.
Local Open Scope Z_scope.
Local Open Scope list_scope.

(** ** Python strings *)

Module PyText.

(** [str.isspace] on ASCII: TAB..CR, FS..US and SPACE. *)
Definition is_space (c : ascii) : bool :=
  let n := N_of_ascii c in
  ((9 <=? n) && (n <=? 13) || (28 <=? n) && (n <=? 32))%N.

Definition lower_char (c : ascii) : ascii :=
  let n := N_of_ascii c in
  if ((65 <=? n) && (n <=? 90))%N then ascii_of_N (n + 32) else c.

(** [s.lower()] *)
Fixpoint lower (s : string) : string :=
  match s with
  | EmptyString => EmptyString
  | String c r => String (lower_char c) (lower r)
  end.

Fixpoint lstrip (s : string) : string :=
  match s with
  | EmptyString => EmptyString
  | String c r => if is_space c then lstrip r else s
  end.

Fixpoint rstrip (s : string) : string :=
  match s with
  | EmptyString => EmptyString
  | String c r =>
      match rstrip r with
      | EmptyString => if is_space c then EmptyString else String c EmptyString
      | r' => String c r'
      end
  end.

(** [s.strip()] *)
Definition strip (s : string) : string := rstrip (lstrip s).

(** [s.split(sep)] for a one-character separator: never the empty list. *)
Fixpoint split (sep : ascii) (s : string) : list string :=
  match s with
  | EmptyString => [EmptyString]
  | String c r =>
      if Ascii.eqb c sep then EmptyString :: split sep r
      else match split sep r with
           | [] => [String c EmptyString]
           | h :: t => String c h :: t
           end
  end.

(** [s.startswith(p)] *)
Definition startswith (p s : string) : bool := String.prefix p s.

(** [needle in hay] *)
Fixpoint contains (needle hay : string) : bool :=
  match hay with
  | EmptyString => String.prefix needle EmptyString
  | String _ r => String.prefix needle hay || contains needle r
  end.

(** Truth value of a string: non-empty. *)
Definition nonempty (s : string) : bool :=
  match s with EmptyString => false | String _ _ => true end.

End PyText.

(** ** Python values carried by a log entry *)

Inductive PyVal : Type :=
| PyNone
| PyInt (z : Z)
| PyStr (s : string).

#[global] Instance PyVal_eq_dec : EqDecision PyVal.
Proof. solve_decision. Defined.

(** [bool(v)] *)
Definition truthy (v : PyVal) : bool :=
  match v with
  | PyNone => false
  | PyInt z => negb (z =? 0)
  | PyStr s => PyText.nonempty s
  end.

(** [v == w] *)
Definition py_eq (v w : PyVal) : bool := bool_decide (v = w).

(** [str(v)] *)
Definition py_str (v : PyVal) : string :=
  match v with
  | PyNone => "None"
  | PyInt z => NilZero.string_of_int (Z.to_int z)
  | PyStr s => s
  end.

(** Exceptions that escape the watcher's own handlers. *)
Inductive exn : Type :=
| ValueError
| TypeError
| ZeroDivisionError.

#[global] Instance exn_eq_dec : EqDecision exn.
Proof. solve_decision. Defined.

Inductive result (A : Type) : Type :=
| Ok (a : A)
| Raise (e : exn).
Arguments Ok {A} a.
Arguments Raise {A} e.

(** *** [int(s)] on text

    Surrounding whitespace is dropped, one sign is allowed, then at
    least one decimal digit; single underscores may separate digits.
    (ASCII digits only, and no bound on their number.) *)

Definition digit_of (c : ascii) : option Z :=
  let n := N_of_ascii c in
  if ((48 <=? n) && (n <=? 57))%N then Some (Z.of_N (n - 48)) else None.

(** [digits acc after_digit s]: [after_digit] tells whether the previous
    character was a digit (an underscore is legal only there, and the
    literal must not end on one). *)
Fixpoint digits (acc : Z) (after_digit : bool) (s : string) : option Z :=
  match s with
  | EmptyString => if after_digit then Some acc else None
  | String c r =>
      match digit_of c with
      | Some d => digits (10 * acc + d) true r
      | None =>
          if Ascii.eqb c "_"%char && after_digit then
            match r with
            | EmptyString => None
            | String c' _ =>
                match digit_of c' with
                | Some _ => digits acc false r
                | None => None
                end
            end
          else None
      end
  end.

Definition int_of_string (s : string) : option Z :=
  match PyText.strip s with
  | String "+" r => digits 0 false r
  | String "-" r => Z.opp <$> digits 0 false r
  | r => digits 0 false r
  end.

(** [int(v)] *)
Definition py_int (v : PyVal) : result Z :=
  match v with
  | PyNone => Raise TypeError
  | PyInt z => Ok z
  | PyStr s =>
      match int_of_string s with
      | Some z => Ok z
      | None => Raise ValueError
      end
  end.


(** A line of the access log, as [json.loads] sees it: not JSON, or an
    object whose fields are the scalars above. *)
Inductive Line : Type :=
| NotJson
| Json (log_entry : gmap string PyVal).

(** ** Configuration, state and the outside world *)

(** The environment variables read by [LogWatcher.__init__] and by
    [detect_pool_from_upstream].  [deque(maxlen=n)] refuses a negative
    [n], so the capacity of a constructed watcher is a natural number. *)
Record Config : Type := {
  slack_webhook : option string;   (* SLACK_WEBHOOK_URL, [None] when unset *)
  active_pool : string;            (* ACTIVE_POOL, default "blue" *)
  error_rate_threshold : Q;        (* ERROR_RATE_THRESHOLD, default 2 *)
  window_size : nat;               (* WINDOW_SIZE, default 200 *)
  alert_cooldown : Z;              (* ALERT_COOLDOWN_SEC, default 300 *)
  maintenance_mode : bool;         (* MAINTENANCE_MODE, default false *)
  blue_ips : string;               (* BLUE_IPS, default "" *)
  green_ips : string               (* GREEN_IPS, default "" *)
}.

Definition default_config : Config := {|
  slack_webhook := None;
  active_pool := "blue";
  error_rate_threshold := 2;
  window_size := 200;
  alert_cooldown := 300;
  maintenance_mode := false;
  blue_ips := "";
  green_ips := ""
|}.

(** What [requests.post] does: a response with a status code, or an
    exception (connection refused, timeout, ...). *)
Inductive Response : Type :=
| Status (code : Z)
| Failed.

(** The outside: the [k]-th reading of the clock and the outcome of the
    [k]-th HTTP post. *)
Record Env : Type := {
  clock : nat -> Q;
  webhook : nat -> Response
}.

(** The data interpolated into the text of an alert. *)
Inductive Message : Type :=
| WatcherStarted (initial_pool : string)
| FailoverDetected (old_pool pool : PyVal)
| HighErrorRate (error_rate threshold : Q) (error_count total_count : nat)
                (window : nat) (current_pool : PyVal).

(** What [send_slack_alert] did with a message. *)
Inductive Outcome : Type :=
| NoWebhook
| Muted
| Posted (r : Response).

(** Interactions with the outside, in program order. *)
Inductive IO : Type :=
| TimeRead (t : Q)
| Notify (alert_type : string) (message : Message) (o : Outcome).

(** The mutable attributes of a [LogWatcher]. *)
Record Watcher : Type := {
  last_pool : PyVal;
  request_window : list bool;
  last_failover_alert : Q;
  last_error_rate_alert : Q;
  log_count : nat
}.

Record World : Type := {
  self : Watcher;
  clock_reads : nat;
  posts : nat;
  trace : list IO
}.

Definition set_self (f : Watcher -> Watcher) (w : World) : World :=
  {| self := f (self w); clock_reads := clock_reads w; posts := posts w;
     trace := trace w |}.

Definition emit (e : IO) (w : World) : World :=
  {| self := self w; clock_reads := clock_reads w; posts := posts w;
     trace := trace w ++ [e] |}.

(** Attribute assignments, [self.x = v]. *)
Definition set_last_pool (pool : PyVal) (s : Watcher) : Watcher :=
  {| last_pool := pool;
     request_window := request_window s;
     last_failover_alert := last_failover_alert s;
     last_error_rate_alert := last_error_rate_alert s;
     log_count := log_count s |}.

Definition set_request_window (window : list bool) (s : Watcher) : Watcher :=
  {| last_pool := last_pool s;
     request_window := window;
     last_failover_alert := last_failover_alert s;
     last_error_rate_alert := last_error_rate_alert s;
     log_count := log_count s |}.

Definition set_last_failover_alert (t : Q) (s : Watcher) : Watcher :=
  {| last_pool := last_pool s;
     request_window := request_window s;
     last_failover_alert := t;
     last_error_rate_alert := last_error_rate_alert s;
     log_count := log_count s |}.

Definition set_last_error_rate_alert (t : Q) (s : Watcher) : Watcher :=
  {| last_pool := last_pool s;
     request_window := request_window s;
     last_failover_alert := last_failover_alert s;
     last_error_rate_alert := t;
     log_count := log_count s |}.

Definition set_log_count (n : nat) (s : Watcher) : Watcher :=
  {| last_pool := last_pool s;
     request_window := request_window s;
     last_failover_alert := last_failover_alert s;
     last_error_rate_alert := last_error_rate_alert s;
     log_count := n |}.

(** ** A state and exception monad

    A raised exception keeps the state reached so far: what was sent
    before the failure stays sent. *)

Definition M (A : Type) : Type := World -> result A * World.

Definition ret {A} (a : A) : M A := fun w => (Ok a, w).

Definition raise {A} (e : exn) : M A := fun w => (Raise e, w).

Definition bind {A B} (m : M A) (f : A -> M B) : M B :=
  fun w =>
    match m w with
    | (Ok a, w') => f a w'
    | (Raise e, w') => (Raise e, w')
    end.

Notation "'let*' x ':=' m 'in' k" := (bind m (fun x => k))
  (at level 10, x name, m at level 100, k at level 200).
Notation "'do' m 'then' k" := (bind m (fun _ => k))
  (at level 10, m at level 100, k at level 200).

Definition get : M Watcher := fun w => (Ok (self w), w).

Definition modify (f : Watcher -> Watcher) : M unit :=
  fun w => (Ok tt, set_self f w).

Definition lift {A} (r : result A) : M A := fun w => (r, w).

(** ** [collections.deque(maxlen=n)]

    [append] adds on the right and, when the length then exceeds
    [maxlen], drops one element on the left. *)
Definition deque_append {A} (maxlen : nat) (d : list A) (x : A) : list A :=
  let d' := d ++ [x] in
  if (maxlen <? length d')%nat then tail d' else d'.

(** Comparison of rationals as a boolean. *)
Definition Qltb (a b : Q) : bool := negb (Qle_bool b a).

(** [a / b] on integers *)
Definition truediv (a b : Z) : result Q :=
  if b =? 0 then Raise ZeroDivisionError else Ok (inject_Z a / inject_Z b)%Q.

(** [sum(1 for is_error in window if is_error)] *)
Definition count_errors (window : list bool) : nat :=
  length (filter (fun is_error => is_error = true) window).

(** Lines 192-194 of [check_error_rate]: counts and rate, as a function
    of the window. *)
Definition error_rate (window : list bool) : result Q :=
  let error_count := count_errors window in
  let total_count := length window in
  match truediv (Z.of_nat error_count) (Z.of_nat total_count) with
  | Ok q => Ok (q * 100)%Q
  | Raise e => Raise e
  end.

(** ** The watcher *)

Section LogWatcher.

Context (cfg : Config) (env : Env).

(** [LogWatcher.__init__] *)
Definition init : Watcher := {|
  last_pool := PyStr (active_pool cfg);
  request_window := [];
  last_failover_alert := 0;
  last_error_rate_alert := 0;
  log_count := 0
|}.

Definition init_world : World :=
  {| self := init; clock_reads := 0; posts := 0; trace := [] |}.

(** [time.time()] *)
Definition time_time : M Q := fun w =>
  let t := clock env (clock_reads w) in
  (Ok t, {| self := self w; clock_reads := S (clock_reads w);
            posts := posts w; trace := trace w ++ [TimeRead t] |}).

(** [requests.post(self.slack_webhook, ...)] *)
Definition requests_post : M Response := fun w =>
  (Ok (webhook env (posts w)),
   {| self := self w; clock_reads := clock_reads w; posts := S (posts w);
      trace := trace w |}).

Definition webhook_configured : bool :=
  match slack_webhook cfg with
  | Some url => PyText.nonempty url
  | None => false
  end.

(** [send_slack_alert]: every call is recorded with what became of it. *)
Definition send_slack_alert (message : Message) (alert_type : string) : M bool :=
  if negb webhook_configured then
    fun w => (Ok false, emit (Notify alert_type message NoWebhook) w)
  else if maintenance_mode cfg && negb (String.eqb alert_type "critical") then
    fun w => (Ok false, emit (Notify alert_type message Muted) w)
  else
    let* response := requests_post in
    do (fun w => (Ok tt, emit (Notify alert_type message (Posted response)) w))
    then match response with
         | Status code => ret (code =? 200)
         | Failed => ret false
         end.

(** The non-empty, stripped pieces of a comma-separated value. *)
Definition csv_items (s : string) : list string :=
  List.filter PyText.nonempty (List.map PyText.strip (PyText.split "," s)).

(** [addrs[-1] if addrs else addr_lower] *)
Definition last_addr_of (addr_lower : string) : string :=
  List.last (csv_items addr_lower) addr_lower.

(** [for ip in ips: if ip in last_addr: return ...] *)
Fixpoint any_in (ips : list string) (last_addr : string) : bool :=
  match ips with
  | [] => false
  | ip :: rest => if PyText.contains ip last_addr then true else any_in rest last_addr
  end.

(** [detect_pool_from_upstream] *)
Definition detect_pool_from_upstream (upstream_addr : PyVal) : PyVal :=
  if negb (truthy upstream_addr) then PyNone
  else
    let addr_lower := PyText.lower (py_str upstream_addr) in
    let last_addr := last_addr_of addr_lower in
    if PyText.contains "blue" last_addr then PyStr "blue"
    else if PyText.contains "green" last_addr then PyStr "green"
    else if PyText.contains ":8081" last_addr || PyText.contains "8081" last_addr
    then PyStr "blue"
    else if PyText.contains ":8082" last_addr || PyText.contains "8082" last_addr
    then PyStr "green"
    else if PyText.nonempty (blue_ips cfg) && any_in (csv_items (blue_ips cfg)) last_addr
    then PyStr "blue"
    else if PyText.nonempty (green_ips cfg) && any_in (csv_items (green_ips cfg)) last_addr
    then PyStr "green"
    else PyNone.

(** [check_failover] *)
Definition check_failover (pool : PyVal) : M bool :=
  if negb (truthy pool) then ret false
  else
    let* s := get in
    if py_eq pool (last_pool s) then ret false
    else
      let* current_time := time_time in
      let time_since_last := (current_time - last_failover_alert s)%Q in
      if Qltb time_since_last (inject_Z (alert_cooldown cfg)) then ret false
      else
        let old_pool := last_pool s in
        do modify (set_last_pool pool)
        then do send_slack_alert (FailoverDetected old_pool pool) "failover"
        then do modify (set_last_failover_alert current_time)
        then ret true.

(** [check_error_rate] *)
Definition check_error_rate : M bool :=
  let* s := get in
  if (length (request_window s) <? 20)%nat then ret false
  else
    let error_count := count_errors (request_window s) in
    let total_count := length (request_window s) in
    let* rate := lift (error_rate (request_window s)) in
    if Qle_bool rate (error_rate_threshold cfg) then ret false
    else
      let* current_time := time_time in
      let time_since_last := (current_time - last_error_rate_alert s)%Q in
      if Qltb time_since_last (inject_Z (alert_cooldown cfg)) then ret false
      else
        do send_slack_alert
             (HighErrorRate rate (error_rate_threshold cfg) error_count
                total_count (window_size cfg) (last_pool s))
             "error_rate"
        then do modify (set_last_error_rate_alert current_time)
        then ret true.

(** [log_entry.get(key)] and [log_entry.get(key, default)] *)
Definition dict_get (log_entry : gmap string PyVal) (key : string)
    (dflt : PyVal) : PyVal :=
  default dflt (log_entry !! key).

(** Lines 257-261 of [process_log_entry]: the error verdict of a record.
    [and] evaluates [int(status)] only for a true [status]. *)
Definition is_error_of (status upstream_status : PyVal) : result bool :=
  match (if truthy status
         then match py_int status with
              | Ok n => Ok (500 <=? n)
              | Raise e => Raise e
              end
         else Ok false) with
  | Raise e => Raise e
  | Ok true => Ok true
  | Ok false =>
      Ok (truthy upstream_status
          && PyText.startswith "5" (py_str upstream_status))
  end.

(** [self.log_count += 1] *)
Definition count_request (s : Watcher) : Watcher :=
  set_log_count (S (log_count s)) s.

(** [self.request_window.append(is_error)] *)
Definition window_append (is_error : bool) (s : Watcher) : Watcher :=
  set_request_window
    (deque_append (window_size cfg) (request_window s) is_error) s.

(** [process_log_entry] *)
Definition process_log_entry (log_entry : gmap string PyVal) : M unit :=
  if bool_decide (log_entry = ∅) then ret tt
  else
    do modify count_request
    then
    let pool := dict_get log_entry "pool" PyNone in
    let pool :=
      if negb (truthy pool) || py_eq pool (PyStr "-") || py_eq pool (PyStr "")
      then detect_pool_from_upstream (dict_get log_entry "upstream_addr" (PyStr ""))
      else pool in
    let status := dict_get log_entry "status" PyNone in
    let upstream_status := dict_get log_entry "upstream_status" PyNone in
    do (if truthy pool then do check_failover pool then ret tt else ret tt)
    then
    let* is_error := lift (is_error_of status upstream_status) in
    do modify (window_append is_error)
    then
    let* s := get in
    if (20 <=? length (request_window s))%nat
    then do check_error_rate then ret tt
    else ret tt.

(** [parse_log_line]: [json.loads] with its [JSONDecodeError] turned
    into [None]. *)
Definition parse_log_line (line : Line) : option (gmap string PyVal) :=
  match line with
  | NotJson => None
  | Json log_entry => Some log_entry
  end.

(** The loop of [tail_logs_subprocess] over the lines read so far: a
    line that does not parse, or parses to an empty object, is skipped;
    an exception ends the loop. *)
Fixpoint tail_logs_subprocess (lines : list Line) : M unit :=
  match lines with
  | [] => ret tt
  | line :: rest =>
      do (match parse_log_line line with
          | Some log_entry =>
              if bool_decide (log_entry = ∅) then ret tt
              else process_log_entry log_entry
          | None => ret tt
          end)
      then tail_logs_subprocess rest
  end.

(** The startup notification of [main]. *)
Definition startup : M bool :=
  send_slack_alert (WatcherStarted (active_pool cfg)) "info".

(** [main] on a finite prefix of the log. *)
Definition main (lines : list Line) : result unit * World :=
  (do startup then tail_logs_subprocess lines) init_world.

End LogWatcher.

(** ** Vocabulary of the specification *)

(** The window after pushing [xs], oldest first, into an empty deque. *)
Definition pushes (capacity : nat) (xs : list bool) : list bool :=
  fold_left (deque_append capacity) xs [].

(** What [send_slack_alert] does with an alert of kind [alert_type] in
    world [w], read off its three branches. *)
Definition notify_outcome (cfg : Config) (env : Env) (alert_type : string)
    (w : World) : Outcome :=
  if negb (webhook_configured cfg) then NoWebhook
  else if maintenance_mode cfg && negb (String.eqb alert_type "critical") then Muted
  else Posted (webhook env (posts w)).

Definition delivered (o : Outcome) : bool :=
  match o with
  | Posted (Status code) => code =? 200
  | _ => false
  end.

Definition after_notify (alert_type : string) (message : Message)
    (o : Outcome) (w : World) : World :=
  {| self := self w;
     clock_reads := clock_reads w;
     posts := match o with Posted _ => S (posts w) | _ => posts w end;
     trace := trace w ++ [Notify alert_type message o] |}.

(** The world after one reading of the clock. *)
Definition after_tick (env : Env) (w : World) : World :=
  {| self := self w;
     clock_reads := S (clock_reads w);
     posts := posts w;
     trace := trace w ++ [TimeRead (clock env (clock_reads w))] |}.

(** The messages handed to the notifier under a given kind. *)
Fixpoint notified (alert_type : string) (tr : list IO) : list Message :=
  match tr with
  | [] => []
  | TimeRead _ :: r => notified alert_type r
  | Notify ty m _ :: r =>
      if String.eqb ty alert_type then m :: notified alert_type r
      else notified alert_type r
  end.

(** The clock reading in force at each alert of a given kind: a scan of
    the trace that remembers the latest [TimeRead]. *)
Definition scan_step (alert_type : string) (acc : Q * list Q) (e : IO)
    : Q * list Q :=
  match e with
  | TimeRead t => (t, snd acc)
  | Notify ty _ _ =>
      if String.eqb ty alert_type then (fst acc, snd acc ++ [fst acc]) else acc
  end.

Definition alert_times (alert_type : string) (tr : list IO) : list Q :=
  snd (fold_left (scan_step alert_type) tr (0%Q, [])).

(** The same scan, keeping only the alerts that Slack accepted. *)
Definition delivered_step (alert_type : string) (acc : Q * list Q) (e : IO)
    : Q * list Q :=
  match e with
  | TimeRead t => (t, snd acc)
  | Notify ty _ o =>
      if String.eqb ty alert_type && delivered o
      then (fst acc, snd acc ++ [fst acc]) else acc
  end.

Definition delivered_times (alert_type : string) (tr : list IO) : list Q :=
  snd (fold_left (delivered_step alert_type) tr (0%Q, [])).

(** Two alert times [a] then [b] are a cooldown apart. *)
Definition apart (cooldown : Z) (a b : Q) : Prop :=
  (inject_Z cooldown <= b - a)%Q.

(** A computation keeps a property of the world, whether it returns or
    raises. *)
Definition preserves {A} (P : World -> Prop) (m : M A) : Prop :=
  forall w, P w -> P (snd (m w)).

(** The rules of the specification (section 4.1, steps 3 to 6) on the
    token they read, in their order of precedence; compared below with
    [detect_pool_from_upstream]. *)
Definition pool_of_token (cfg : Config) (token : string) : PyVal :=
  if PyText.contains "blue" token then PyStr "blue"
  else if PyText.contains "green" token then PyStr "green"
  else if PyText.contains "8081" token then PyStr "blue"
  else if PyText.contains "8082" token then PyStr "green"
  else if existsb (fun ip => PyText.contains ip token) (csv_items (blue_ips cfg))
  then PyStr "blue"
  else if existsb (fun ip => PyText.contains ip token) (csv_items (green_ips cfg))
  then PyStr "green"
  else PyNone.

(** The world after a confirmed failover to [pool]. *)
Definition failover_world (cfg : Config) (env : Env) (pool : PyVal)
    (w : World) : World :=
  let now := clock env (clock_reads w) in
  let o := notify_outcome cfg env "failover" w in
  {| self := set_last_failover_alert now (set_last_pool pool (self w));
     clock_reads := S (clock_reads w);
     posts := match o with Posted _ => S (posts w) | _ => posts w end;
     trace := trace w ++ [TimeRead now;
                          Notify "failover"
                            (FailoverDetected (last_pool (self w)) pool) o] |}.

(** The world after an error-rate alert at rate [rate]. *)
Definition error_rate_world (cfg : Config) (env : Env) (rate : Q)
    (w : World) : World :=
  let now := clock env (clock_reads w) in
  let o := notify_outcome cfg env "error_rate" w in
  {| self := set_last_error_rate_alert now (self w);
     clock_reads := S (clock_reads w);
     posts := match o with Posted _ => S (posts w) | _ => posts w end;
     trace := trace w ++ [TimeRead now;
                          Notify "error_rate"
                            (HighErrorRate rate (error_rate_threshold cfg)
                               (count_errors (request_window (self w)))
                               (length (request_window (self w)))
                               (window_size cfg) (last_pool (self w))) o] |}.

(** A property of the world that every step of the watcher keeps: the
    two bookkeeping updates of [process_log_entry], a reading of the
    clock, a confirmed failover and an error-rate alert (the last two
    happen only a cooldown after the detector's timestamp). *)
Definition stable (cfg : Config) (env : Env) (P : World -> Prop) : Prop :=
  (forall w, P w -> P (set_self count_request w)) /\
  (forall b w, P w -> P (set_self (window_append cfg b) w)) /\
  (forall w, P w -> P (after_tick env w)) /\
  (forall pool w,
     P w ->
     (inject_Z (alert_cooldown cfg)
        <= clock env (clock_reads w) - last_failover_alert (self w))%Q ->
     P (failover_world cfg env pool w)) /\
  (forall rate w,
     P w ->
     (20 <= length (request_window (self w)))%nat ->
     (inject_Z (alert_cooldown cfg)
        <= clock env (clock_reads w) - last_error_rate_alert (self w))%Q ->
     P (error_rate_world cfg env rate w)).

(** The cooldown bookkeeping of one detector: its alerts so far are a
    cooldown apart from one to the next, and the timestamp it holds is
    the time of the latest one. *)
Definition cooldown_kept (cfg : Config) (alert_type : string)
    (stamp : Watcher -> Q) (w : World) : Prop :=
  Sorted (apart (alert_cooldown cfg)) (alert_times alert_type (trace w)) /\
  (forall t, last (alert_times alert_type (trace w)) = Some t -> t = stamp (self w)).

(** The world right after the startup notification. *)
Definition started (cfg : Config) (env : Env) : World :=
  after_notify "info" (WatcherStarted (active_pool cfg))
    (notify_outcome cfg env "info" (init_world cfg)) (init_world cfg).

(** A confirmed failover, as [check_failover] leaves the world: the
    pool and the timestamp are recorded and one alert naming both pools
    went to the notifier, which did [o] with it. *)
Definition failover_recorded (cfg : Config) (env : Env) (pool : PyVal)
    (w : World) (o : Outcome) : Prop :=
  let now := clock env (clock_reads w) in
  let r := check_failover cfg env pool w in
  fst r = Ok true /\
  last_pool (self (snd r)) = pool /\
  last_failover_alert (self (snd r)) = now /\
  request_window (self (snd r)) = request_window (self w) /\
  last_error_rate_alert (self (snd r)) = last_error_rate_alert (self w) /\
  trace (snd r) =
    trace w ++ [TimeRead now;
                Notify "failover" (FailoverDetected (last_pool (self w)) pool) o].

(** An error-rate alert, as [check_error_rate] leaves the world. *)
Definition error_rate_recorded (cfg : Config) (env : Env) (rate : Q)
    (w : World) (o : Outcome) : Prop :=
  let now := clock env (clock_reads w) in
  let r := check_error_rate cfg env w in
  fst r = Ok true /\
  last_error_rate_alert (self (snd r)) = now /\
  last_pool (self (snd r)) = last_pool (self w) /\
  request_window (self (snd r)) = request_window (self w) /\
  last_failover_alert (self (snd r)) = last_failover_alert (self w) /\
  trace (snd r) =
    trace w ++ [TimeRead now;
                Notify "error_rate"
                  (HighErrorRate rate (error_rate_threshold cfg)
                     (count_errors (request_window (self w)))
                     (length (request_window (self w)))
                     (window_size cfg) (last_pool (self w))) o].

(** A detection held back by the cooldown: the clock was read, nothing
    else happened. *)
Definition suppressed {A} (env : Env) (w : World) (r : result A * World) : Prop :=
  self (snd r) = self w /\
  trace (snd r) = trace w ++ [TimeRead (clock env (clock_reads w))].

(** A world whose window holds [window]. *)
Definition with_window (window : list bool) (w : World) : World :=
  set_self (set_request_window window) w.

(** *** Concrete settings used in examples *)

Definition slack_config : Config := {|
  slack_webhook := Some "https://hooks.slack.com/services/T0/B0/X0";
  active_pool := "blue";
  error_rate_threshold := 2;
  window_size := 200;
  alert_cooldown := 300;
  maintenance_mode := false;
  blue_ips := "";
  green_ips := ""
|}.

Definition maintenance_config : Config := {|
  slack_webhook := Some "https://hooks.slack.com/services/T0/B0/X0";
  active_pool := "blue";
  error_rate_threshold := 2;
  window_size := 200;
  alert_cooldown := 300;
  maintenance_mode := true;
  blue_ips := "";
  green_ips := ""
|}.

(** A clock that returns the given readings in turn (then 0). *)
Definition readings (ts : list Q) : nat -> Q := fun k => nth k ts 0%Q.

(** A clock stuck at instant 0, Slack answering 200. *)
Definition epoch_env : Env :=
  {| clock := fun _ => 0%Q; webhook := fun _ => Status 200 |}.

(** Readings 1000, 1001 and 1301; Slack answering 200. *)
Definition steady_env : Env :=
  {| clock := readings [1000; 1001; 1301]%Q; webhook := fun _ => Status 200 |}.

(** Same clock, every post times out. *)
Definition offline_env : Env :=
  {| clock := readings [1000; 1001; 1301]%Q; webhook := fun _ => Failed |}.

(** Log records served by "green" and by "blue", answered 200. *)
Definition green_request : gmap string PyVal :=
  {[ "pool" := PyStr "green"; "status" := PyInt 200 ]}.

Definition blue_request : gmap string PyVal :=
  {[ "pool" := PyStr "blue"; "status" := PyInt 200 ]}.

(** A short log: "green", "blue", a line that is not JSON, "blue". *)
Definition sample_log : list Line :=
  [Json green_request; Json blue_request; NotJson; Json blue_request].

(** A window of ten requests. *)
Definition small_window_config : Config := {|
  slack_webhook := Some "https://hooks.slack.com/services/T0/B0/X0";
  active_pool := "blue";
  error_rate_threshold := 2;
  window_size := 10;
  alert_cooldown := 300;
  maintenance_mode := false;
  blue_ips := "";
  green_ips := ""
|}.

(** A record answered 503. *)
Definition failed_request : gmap string PyVal :=
  {[ "pool" := PyStr "blue"; "status" := PyInt 503 ]}.

(** A record whose status is not a number. *)
Definition bad_status_request : gmap string PyVal :=
  {[ "status" := PyStr "abc"; "upstream_status" := PyStr "502" ]}.


(** Twenty requests, the last one an error. *)
Definition one_error_in_twenty : list bool := repeat false 19 ++ [true].

(** *** Vocabulary for whole runs *)

(** The pool a record is attributed to (lines 240-243 of
    [process_log_entry]): its own [pool] field, or what the classifier
    makes of [upstream_addr] when that field is missing, empty or "-". *)
Definition pool_of_entry (cfg : Config) (log_entry : gmap string PyVal) : PyVal :=
  let pool := dict_get log_entry "pool" PyNone in
  if negb (truthy pool) || py_eq pool (PyStr "-") || py_eq pool (PyStr "")
  then detect_pool_from_upstream cfg (dict_get log_entry "upstream_addr" (PyStr ""))
  else pool.

(** The error verdict of a record (lines 245-261). *)
Definition verdict_of_entry (log_entry : gmap string PyVal) : result bool :=
  is_error_of (dict_get log_entry "status" PyNone)
              (dict_get log_entry "upstream_status" PyNone).

(** The records the loop hands to [process_log_entry]: the lines that
    parse to a non-empty object. *)
Fixpoint processed (lines : list Line) : list (gmap string PyVal) :=
  match lines with
  | [] => []
  | line :: rest =>
      match parse_log_line line with
      | Some log_entry =>
          if bool_decide (log_entry = ∅) then processed rest
          else log_entry :: processed rest
      | None => processed rest
      end
  end.

(** The verdicts of a list of records, as far as they exist. *)
Fixpoint verdicts (entries : list (gmap string PyVal)) : list bool :=
  match entries with
  | [] => []
  | log_entry :: rest =>
      match verdict_of_entry log_entry with
      | Ok b => b :: verdicts rest
      | Raise _ => verdicts rest
      end
  end.

(** The records a run gets to: all of them up to and including the
    first one without a verdict. *)
Fixpoint attempted (entries : list (gmap string PyVal))
    : list (gmap string PyVal) :=
  match entries with
  | [] => []
  | log_entry :: rest =>
      match verdict_of_entry log_entry with
      | Ok _ => log_entry :: attempted rest
      | Raise _ => [log_entry]
      end
  end.

(** A record whose verdict exists. *)
Definition well_formed (log_entry : gmap string PyVal) : Prop :=
  exists b, verdict_of_entry log_entry = Ok b.

(** Failover messages that hand over from one pool to the next:
    starting at [from], each names the pool the previous one moved to
    and a different, known pool to move to, ending at [to]. *)
Fixpoint chained (from : PyVal) (messages : list Message) (to : PyVal) : Prop :=
  match messages with
  | [] => from = to
  | FailoverDetected old_pool pool :: rest =>
      old_pool = from /\ pool <> old_pool /\ truthy pool = true /\
      chained pool rest to
  | _ :: _ => False
  end.


(** The kind of an interaction with the notifier is one of [kinds]. *)
Definition kind_among (kinds : list string) (e : IO) : Prop :=
  match e with
  | TimeRead _ => True
  | Notify alert_type _ _ => In alert_type kinds
  end.

(** The number of requests that went to Slack. *)
Fixpoint posted_count (tr : list IO) : nat :=
  match tr with
  | [] => 0
  | Notify _ _ (Posted _) :: r => S (posted_count r)
  | _ :: r => posted_count r
  end.

(** Upper-case letters. *)
Definition is_upper (c : ascii) : bool :=
  let n := N_of_ascii c in ((65 <=? n) && (n <=? 90))%N.


(** Some character of the text is an upper-case letter. *)
Fixpoint has_upper (s : string) : bool :=
  match s with
  | EmptyString => false
  | String c r => is_upper c || has_upper r
  end.

(** The configuration with both lists of known addresses emptied. *)
Definition without_known_addresses (cfg : Config) : Config := {|
  slack_webhook := slack_webhook cfg;
  active_pool := active_pool cfg;
  error_rate_threshold := error_rate_threshold cfg;
  window_size := window_size cfg;
  alert_cooldown := alert_cooldown cfg;
  maintenance_mode := maintenance_mode cfg;
  blue_ips := "";
  green_ips := ""
|}.

(** A configuration that knows the blue pool by a capitalised name. *)
Definition capitalised_config : Config := {|
  slack_webhook := None;
  active_pool := "blue";
  error_rate_threshold := 2;
  window_size := 200;
  alert_cooldown := 300;
  maintenance_mode := false;
  blue_ips := "App-One, App-Two";
  green_ips := ""
|}.

(** ** Basic facts *)

Lemma Qltb_true (a b : Q) : Qltb a b = true <-> (a < b)%Q.
Proof.
  unfold Qltb. rewrite negb_true_iff.
  destruct (Qle_bool b a) eqn:E.
  - apply Qle_bool_iff in E. split; [discriminate | intros H; lra].
  - split; [intros _ | reflexivity].
    destruct (Qlt_le_dec a b) as [H | H]; [exact H |].
    apply Qle_bool_iff in H. congruence.
Qed.

Lemma Qltb_false (a b : Q) : Qltb a b = false <-> (b <= a)%Q.
Proof.
  unfold Qltb. rewrite negb_false_iff. apply Qle_bool_iff.
Qed.

Lemma send_slack_alert_eq cfg env message alert_type w :
  send_slack_alert cfg env message alert_type w =
  (Ok (delivered (notify_outcome cfg env alert_type w)),
   after_notify alert_type message (notify_outcome cfg env alert_type w) w).
Proof.
  unfold send_slack_alert, notify_outcome.
  destruct (negb (webhook_configured cfg)); [reflexivity |].
  destruct (maintenance_mode cfg && negb (String.eqb alert_type "critical"));
    [reflexivity |].
  unfold bind, requests_post, emit, after_notify, ret, delivered; simpl.
  destruct (webhook env (posts w)); reflexivity.
Qed.

(** *** The three ways through [check_failover] *)

Lemma check_failover_noop cfg env pool w :
  truthy pool = false \/ pool = last_pool (self w) ->
  check_failover cfg env pool w = (Ok false, w).
Proof.
  intros H. unfold check_failover.
  destruct (truthy pool) eqn:T; simpl; [| reflexivity].
  destruct H as [H | H]; [discriminate |].
  unfold bind, get, py_eq. rewrite bool_decide_eq_true_2 by exact H.
  reflexivity.
Qed.

Lemma check_failover_suppressed cfg env pool w :
  truthy pool = true ->
  pool <> last_pool (self w) ->
  (clock env (clock_reads w) - last_failover_alert (self w)
     < inject_Z (alert_cooldown cfg))%Q ->
  check_failover cfg env pool w = (Ok false, after_tick env w).
Proof.
  intros T N C. unfold check_failover. rewrite T; simpl.
  unfold bind, get, py_eq. rewrite bool_decide_eq_false_2 by exact N.
  unfold time_time. apply Qltb_true in C. rewrite C. reflexivity.
Qed.

Lemma check_failover_fired cfg env pool w :
  truthy pool = true ->
  pool <> last_pool (self w) ->
  (inject_Z (alert_cooldown cfg)
     <= clock env (clock_reads w) - last_failover_alert (self w))%Q ->
  check_failover cfg env pool w = (Ok true, failover_world cfg env pool w).
Proof.
  intros T N C. unfold check_failover, failover_world. rewrite T; simpl.
  unfold bind, get, py_eq. rewrite bool_decide_eq_false_2 by exact N.
  unfold time_time. apply Qltb_false in C. rewrite C.
  unfold modify, set_self; simpl. rewrite send_slack_alert_eq.
  unfold after_notify, ret; simpl.
  rewrite <- app_assoc. reflexivity.
Qed.

(** *** The four ways through [check_error_rate] *)

Lemma error_rate_nonempty (window : list bool) :
  window <> [] ->
  error_rate window =
  Ok (inject_Z (Z.of_nat (count_errors window))
        / inject_Z (Z.of_nat (length window)) * 100)%Q.
Proof.
  intros H. unfold error_rate, truediv.
  destruct (Z.eqb_spec (Z.of_nat (length window)) 0) as [E | E]; [| reflexivity].
  destruct window; [congruence | simpl in E; lia].
Qed.

Lemma check_error_rate_few cfg env w :
  (length (request_window (self w)) < 20)%nat ->
  check_error_rate cfg env w = (Ok false, w).
Proof.
  intros H. unfold check_error_rate, bind, get.
  apply Nat.ltb_lt in H. rewrite H. reflexivity.
Qed.

Lemma check_error_rate_low cfg env w rate :
  (20 <= length (request_window (self w)))%nat ->
  error_rate (request_window (self w)) = Ok rate ->
  (rate <= error_rate_threshold cfg)%Q ->
  check_error_rate cfg env w = (Ok false, w).
Proof.
  intros H R L. unfold check_error_rate, bind, get.
  apply Nat.ltb_ge in H. rewrite H. unfold lift. rewrite R.
  apply Qle_bool_iff in L. rewrite L. reflexivity.
Qed.

Lemma check_error_rate_suppressed cfg env w rate :
  (20 <= length (request_window (self w)))%nat ->
  error_rate (request_window (self w)) = Ok rate ->
  (error_rate_threshold cfg < rate)%Q ->
  (clock env (clock_reads w) - last_error_rate_alert (self w)
     < inject_Z (alert_cooldown cfg))%Q ->
  check_error_rate cfg env w = (Ok false, after_tick env w).
Proof.
  intros H R L C. unfold check_error_rate, bind, get.
  apply Nat.ltb_ge in H. rewrite H. unfold lift. rewrite R.
  destruct (Qle_bool rate (error_rate_threshold cfg)) eqn:E.
  { apply Qle_bool_iff in E. lra. }
  unfold time_time. apply Qltb_true in C. rewrite C. reflexivity.
Qed.

Lemma check_error_rate_fired cfg env w rate :
  (20 <= length (request_window (self w)))%nat ->
  error_rate (request_window (self w)) = Ok rate ->
  (error_rate_threshold cfg < rate)%Q ->
  (inject_Z (alert_cooldown cfg)
     <= clock env (clock_reads w) - last_error_rate_alert (self w))%Q ->
  check_error_rate cfg env w = (Ok true, error_rate_world cfg env rate w).
Proof.
  intros H R L C. unfold check_error_rate, error_rate_world, bind, get.
  apply Nat.ltb_ge in H. rewrite H. unfold lift. rewrite R.
  destruct (Qle_bool rate (error_rate_threshold cfg)) eqn:E.
  { apply Qle_bool_iff in E. lra. }
  unfold time_time. apply Qltb_false in C. rewrite C.
  rewrite send_slack_alert_eq.
  unfold after_notify, modify, set_self, ret; simpl.
  rewrite <- app_assoc. reflexivity.
Qed.

(** ** The failover detector *)

(** C1 (as amended).  [check_failover]: an unknown pool or the pool
    already known changes nothing; a different pool inside the cooldown
    is suppressed and [last_pool] stays; otherwise [last_pool] and
    [last_failover_alert] are set and one failover alert naming the
    previous and the new pool goes out.  The timestamp of a fresh
    watcher is 0: from active pool "blue", a first "green" seen at a
    time [t] at least one cooldown after 0 fires, "blue" at [t+1] is
    suppressed and "blue" at [t+cooldown+1] fires. *)
Theorem check_failover_cases :
  (forall cfg env pool w,
     let now := clock env (clock_reads w) in
     let r := check_failover cfg env pool w in
     (truthy pool = false \/ pool = last_pool (self w) -> r = (Ok false, w)) /\
     (truthy pool = true -> pool <> last_pool (self w) ->
      (now - last_failover_alert (self w) < inject_Z (alert_cooldown cfg))%Q ->
      fst r = Ok false /\ suppressed env w r) /\
     (truthy pool = true -> pool <> last_pool (self w) ->
      ~ (now - last_failover_alert (self w) < inject_Z (alert_cooldown cfg))%Q ->
      exists o, failover_recorded cfg env pool w o)) /\
  (forall cfg env,
     active_pool cfg = "blue" ->
     1 < alert_cooldown cfg ->
     (inject_Z (alert_cooldown cfg) <= clock env 0)%Q ->
     (clock env 1 == clock env 0 + 1)%Q ->
     (clock env 2 == clock env 0 + inject_Z (alert_cooldown cfg) + 1)%Q ->
     let r1 := check_failover cfg env (PyStr "green") (init_world cfg) in
     let r2 := check_failover cfg env (PyStr "blue") (snd r1) in
     let r3 := check_failover cfg env (PyStr "blue") (snd r2) in
     (fst r1 = Ok true /\ last_pool (self (snd r1)) = PyStr "green") /\
     (fst r2 = Ok false /\ last_pool (self (snd r2)) = PyStr "green") /\
     (fst r3 = Ok true /\ last_pool (self (snd r3)) = PyStr "blue")).
Proof.
  split.
  - intros cfg env pool w now r. repeat split.
    + intros H. apply check_failover_noop. exact H.
    + subst r. rewrite check_failover_suppressed by assumption. reflexivity.
    + subst r. rewrite check_failover_suppressed by assumption. reflexivity.
    + subst r. rewrite check_failover_suppressed by assumption. reflexivity.
    + intros T N C. apply Qnot_lt_le in C.
      exists (notify_outcome cfg env "failover" w).
      unfold failover_recorded.
      rewrite (check_failover_fired cfg env pool w T N C). simpl.
      repeat split; reflexivity.
  - intros cfg env A C1 C0 H1 H2 r1 r2 r3.
    assert (E1 : r1 = check_failover cfg env (PyStr "green") (init_world cfg))
      by reflexivity.
    rewrite check_failover_fired in E1; simpl; try reflexivity.
    2:{ rewrite A. discriminate. }
    2:{ lra. }
    simpl in E1.
    assert (E2 : r2 = check_failover cfg env (PyStr "blue") (snd r1))
      by reflexivity.
    rewrite E1 in E2.
    rewrite check_failover_suppressed in E2; simpl; try reflexivity.
    2:{ discriminate. }
    2:{ assert (inject_Z 1 < inject_Z (alert_cooldown cfg))%Q
          by (rewrite <- Zlt_Qlt; lia).
        change (inject_Z 1) with 1%Q in H. lra. }
    assert (E3 : r3 = check_failover cfg env (PyStr "blue") (snd r2))
      by reflexivity.
    rewrite E2 in E3.
    rewrite check_failover_fired in E3; simpl; try reflexivity.
    2:{ discriminate. }
    2:{ lra. }
    rewrite E1, E2, E3. simpl. repeat split; reflexivity.
Qed.

Lemma check_failover_cases_witness :
  check_failover slack_config steady_env PyNone (init_world slack_config)
    = (Ok false, init_world slack_config) /\
  (let r := check_failover slack_config epoch_env (PyStr "green")
              (init_world slack_config) in
   fst r = Ok false /\ suppressed epoch_env (init_world slack_config) r) /\
  (exists o, failover_recorded slack_config steady_env (PyStr "green")
               (init_world slack_config) o) /\
  (let r1 := check_failover slack_config steady_env (PyStr "green")
               (init_world slack_config) in
   let r2 := check_failover slack_config steady_env (PyStr "blue") (snd r1) in
   let r3 := check_failover slack_config steady_env (PyStr "blue") (snd r2) in
   (fst r1 = Ok true /\ last_pool (self (snd r1)) = PyStr "green") /\
   (fst r2 = Ok false /\ last_pool (self (snd r2)) = PyStr "green") /\
   (fst r3 = Ok true /\ last_pool (self (snd r3)) = PyStr "blue")).
Proof.
  destruct check_failover_cases as [cases example].
  split; [| split; [| split]].
  - apply (cases slack_config steady_env PyNone (init_world slack_config)).
    left. reflexivity.
  - apply (cases slack_config epoch_env (PyStr "green") (init_world slack_config)).
    + reflexivity.
    + discriminate.
    + reflexivity.
  - apply (cases slack_config steady_env (PyStr "green") (init_world slack_config)).
    + reflexivity.
    + discriminate.
    + intros H. vm_compute in H. discriminate.
  - apply (example slack_config steady_env).
    + reflexivity.
    + reflexivity.
    + discriminate.
    + reflexivity.
    + reflexivity.
Defined.

(** C1, the claim as written, fails at instant 0: a fresh watcher holds
    timestamp 0, so a first change of pool seen at time 0 is inside the
    cooldown and is suppressed. *)
Lemma first_failover_at_instant_zero :
  let r := check_failover default_config epoch_env (PyStr "green")
             (init_world default_config) in
  fst r = Ok false /\
  last_pool (self (snd r)) = PyStr "blue" /\
  notified "failover" (trace (snd r)) = [].
Proof. vm_compute. repeat split. Qed.

(** ** The error-rate detector *)



(** ** Detector state and delivery *)

(** C9.  Once a detection has passed the cooldown check the state is
    updated whatever becomes of the notification: with no webhook
    configured, with the kind muted by maintenance mode, and when the
    post fails or is answered with a status other than 200.  The next
    detection inside the cooldown is then suppressed, counted from that
    attempt. *)
Theorem state_updated_whatever_the_delivery :
  forall cfg env w,
    let now := clock env (clock_reads w) in
    (forall pool,
       truthy pool = true -> pool <> last_pool (self w) ->
       (inject_Z (alert_cooldown cfg) <= now - last_failover_alert (self w))%Q ->
       let o := notify_outcome cfg env "failover" w in
       let r := check_failover cfg env pool w in
       failover_recorded cfg env pool w o /\
       (webhook_configured cfg = false -> o = NoWebhook) /\
       (webhook_configured cfg = true -> maintenance_mode cfg = true -> o = Muted) /\
       (webhook_configured cfg = true -> maintenance_mode cfg = false ->
        o = Posted (webhook env (posts w))) /\
       (forall pool',
          truthy pool' = true -> pool' <> pool ->
          (clock env (S (clock_reads w)) - now < inject_Z (alert_cooldown cfg))%Q ->
          fst (check_failover cfg env pool' (snd r)) = Ok false)) /\
    (forall rate,
       (20 <= length (request_window (self w)))%nat ->
       error_rate (request_window (self w)) = Ok rate ->
       (error_rate_threshold cfg < rate)%Q ->
       (inject_Z (alert_cooldown cfg) <= now - last_error_rate_alert (self w))%Q ->
       let o := notify_outcome cfg env "error_rate" w in
       let r := check_error_rate cfg env w in
       error_rate_recorded cfg env rate w o /\
       (webhook_configured cfg = false -> o = NoWebhook) /\
       (webhook_configured cfg = true -> maintenance_mode cfg = true -> o = Muted) /\
       (webhook_configured cfg = true -> maintenance_mode cfg = false ->
        o = Posted (webhook env (posts w))) /\
       ((clock env (S (clock_reads w)) - now < inject_Z (alert_cooldown cfg))%Q ->
        fst (check_error_rate cfg env (snd r)) = Ok false)) /\
    delivered NoWebhook = false /\
    delivered Muted = false /\
    delivered (Posted Failed) = false /\
    (forall code, code <> 200 -> delivered (Posted (Status code)) = false).
Proof.
  intros cfg env w now. split; [| split].
  - intros pool T N C o r.
    pose proof (check_failover_fired cfg env pool w T N C) as E. simpl in E.
    split; [| split; [| split; [| split]]].
    + unfold failover_recorded. rewrite E. simpl. repeat split; reflexivity.
    + intros H. subst o. unfold notify_outcome. rewrite H. reflexivity.
    + intros H Hm. subst o. unfold notify_outcome. rewrite H, Hm. reflexivity.
    + intros H Hm. subst o. unfold notify_outcome. rewrite H, Hm. reflexivity.
    + intros pool' T' N' C'. subst r. rewrite E.
      rewrite check_failover_suppressed; simpl; auto.
  - intros rate L R Hgt C o r.
    pose proof (check_error_rate_fired cfg env w rate L R Hgt C) as E. simpl in E.
    split; [| split; [| split; [| split]]].
    + unfold error_rate_recorded. rewrite E. simpl. repeat split; reflexivity.
    + intros H. subst o. unfold notify_outcome. rewrite H. reflexivity.
    + intros H Hm. subst o. unfold notify_outcome. rewrite H, Hm. reflexivity.
    + intros H Hm. subst o. unfold notify_outcome. rewrite H, Hm. reflexivity.
    + intros C'. subst r. rewrite E.
      rewrite (check_error_rate_suppressed cfg env _ rate); simpl; auto.
  - repeat split. intros code H. simpl. apply Z.eqb_neq. exact H.
Qed.

Lemma state_updated_whatever_the_delivery_witness :
  (let w := init_world maintenance_config in
   failover_recorded maintenance_config offline_env (PyStr "green") w Muted) /\
  (let w := init_world default_config in
   failover_recorded default_config offline_env (PyStr "green") w NoWebhook) /\
  (let w := init_world slack_config in
   failover_recorded slack_config offline_env (PyStr "green") w (Posted Failed) /\
   fst (check_failover slack_config offline_env (PyStr "blue")
          (snd (check_failover slack_config offline_env (PyStr "green") w)))
     = Ok false) /\
  (let w := with_window one_error_in_twenty (init_world maintenance_config) in
   error_rate_recorded maintenance_config offline_env (100 # 20) w Muted /\
   fst (check_error_rate maintenance_config offline_env
          (snd (check_error_rate maintenance_config offline_env w)))
     = Ok false).
Proof.
  split; [| split; [| split]].
  - intros w.
    apply (state_updated_whatever_the_delivery maintenance_config offline_env w).
    + reflexivity.
    + discriminate.
    + discriminate.
  - intros w.
    apply (state_updated_whatever_the_delivery default_config offline_env w).
    + reflexivity.
    + discriminate.
    + discriminate.
  - intros w.
    destruct (state_updated_whatever_the_delivery slack_config offline_env w)
      as [failover _].
    destruct (failover (PyStr "green")) as (rec & _ & _ & _ & next).
    + reflexivity.
    + discriminate.
    + discriminate.
    + split; [exact rec |]. apply next.
      * reflexivity.
      * discriminate.
      * reflexivity.
  - intros w.
    destruct (state_updated_whatever_the_delivery maintenance_config offline_env w)
      as (_ & errors & _).
    destruct (errors (100 # 20)%Q) as (rec & _ & _ & _ & next).
    + simpl. lia.
    + reflexivity.
    + reflexivity.
    + discriminate.
    + split; [exact rec |]. apply next. reflexivity.
Defined.

(** ** The sliding window *)

Lemma deque_append_drop {A} (maxlen : nat) (d : list A) (x : A) :
  (length d <= maxlen)%nat ->
  deque_append maxlen d x = drop (length d + 1 - maxlen) (d ++ [x]).
Proof.
  intros H. unfold deque_append. rewrite length_app. simpl.
  destruct (Nat.ltb_spec maxlen (length d + 1)) as [L | L].
  - replace (length d + 1 - maxlen)%nat with 1%nat by lia.
    destruct d; reflexivity.
  - replace (length d + 1 - maxlen)%nat with 0%nat by lia. reflexivity.
Qed.

Lemma deque_append_length {A} (maxlen : nat) (d : list A) (x : A) :
  (length d <= maxlen)%nat ->
  (length (deque_append maxlen d x) <= maxlen)%nat.
Proof.
  intros H. rewrite deque_append_drop by exact H.
  rewrite length_drop, length_app. simpl. lia.
Qed.

Lemma pushes_snoc (capacity : nat) (xs : list bool) (x : bool) :
  pushes capacity (xs ++ [x]) = deque_append capacity (pushes capacity xs) x.
Proof. unfold pushes. rewrite fold_left_app. reflexivity. Qed.

Lemma pushes_drop (capacity : nat) (xs : list bool) :
  pushes capacity xs = drop (length xs - capacity) xs.
Proof.
  induction xs as [| x xs IH] using rev_ind.
  - reflexivity.
  - rewrite pushes_snoc, IH.
    rewrite deque_append_drop by (rewrite length_drop; lia).
    rewrite length_drop, length_app. simpl.
    destruct (Nat.le_gt_cases capacity (length xs)) as [L | L].
    + replace (length xs - (length xs - capacity) + 1 - capacity)%nat
        with 1%nat by lia.
      replace (length xs + 1 - capacity)%nat
        with (length xs - capacity + 1)%nat by lia.
      rewrite <- drop_drop. f_equal.
      rewrite drop_app_le by lia. reflexivity.
    + replace (length xs - capacity)%nat with 0%nat by lia.
      replace (length xs + 1 - capacity)%nat with 0%nat by lia.
      rewrite Nat.sub_0_r.
      replace (length xs + 1 - capacity)%nat with 0%nat by lia.
      reflexivity.
Qed.

Lemma pushes_length (capacity : nat) (xs : list bool) :
  length (pushes capacity xs) = Nat.min (length xs) capacity.
Proof. rewrite pushes_drop, length_drop. lia. Qed.

(** ** Invariants of a run *)

Lemma preserves_ret {A} (P : World -> Prop) (a : A) : preserves P (ret a).
Proof. intros w H. exact H. Qed.

Lemma preserves_lift {A} (P : World -> Prop) (r : result A) :
  preserves P (lift r).
Proof. intros w H. exact H. Qed.

Lemma preserves_get (P : World -> Prop) : preserves P get.
Proof. intros w H. exact H. Qed.

Lemma preserves_modify (P : World -> Prop) (f : Watcher -> Watcher) :
  (forall w, P w -> P (set_self f w)) -> preserves P (modify f).
Proof. intros H w Pw. apply H. exact Pw. Qed.

Lemma preserves_bind {A B} (P : World -> Prop) (m : M A) (f : A -> M B) :
  preserves P m -> (forall a, preserves P (f a)) -> preserves P (bind m f).
Proof.
  intros Hm Hf w Pw. unfold bind.
  specialize (Hm w Pw). destruct (m w) as [[a | e] w']; simpl in *.
  - apply Hf. exact Hm.
  - exact Hm.
Qed.

Lemma check_failover_outcomes cfg env pool w :
  let r := check_failover cfg env pool w in
  r = (Ok false, w) \/
  r = (Ok false, after_tick env w) \/
  ((inject_Z (alert_cooldown cfg)
      <= clock env (clock_reads w) - last_failover_alert (self w))%Q /\
   r = (Ok true, failover_world cfg env pool w)).
Proof.
  intros r. subst r.
  destruct (truthy pool) eqn:T.
  2:{ left. apply check_failover_noop. left. exact T. }
  destruct (decide (pool = last_pool (self w))) as [E | N].
  { left. apply check_failover_noop. right. exact E. }
  destruct (Qlt_le_dec (clock env (clock_reads w) - last_failover_alert (self w))
              (inject_Z (alert_cooldown cfg))) as [C | C].
  - right. left. apply check_failover_suppressed; assumption.
  - right. right. split; [exact C |]. apply check_failover_fired; assumption.
Qed.

Lemma check_error_rate_outcomes cfg env w :
  let r := check_error_rate cfg env w in
  r = (Ok false, w) \/
  r = (Ok false, after_tick env w) \/
  ((20 <= length (request_window (self w)))%nat /\
   (inject_Z (alert_cooldown cfg)
      <= clock env (clock_reads w) - last_error_rate_alert (self w))%Q /\
   exists rate, r = (Ok true, error_rate_world cfg env rate w)).
Proof.
  intros r. subst r.
  destruct (Nat.lt_ge_cases (length (request_window (self w))) 20) as [L | L].
  { left. apply check_error_rate_few. exact L. }
  assert (NE : request_window (self w) <> [])
    by (intros E; rewrite E in L; simpl in L; lia).
  pose proof (error_rate_nonempty _ NE) as R.
  set (rate := (_ / _ * 100)%Q) in R.
  destruct (Qlt_le_dec (error_rate_threshold cfg) rate) as [G | G].
  2:{ left. apply (check_error_rate_low cfg env w rate); assumption. }
  destruct (Qlt_le_dec (clock env (clock_reads w) - last_error_rate_alert (self w))
              (inject_Z (alert_cooldown cfg))) as [C | C].
  - right. left. apply (check_error_rate_suppressed cfg env w rate); assumption.
  - right. right. split; [exact L |]. split; [exact C |]. exists rate.
    apply check_error_rate_fired; assumption.
Qed.

Lemma preserves_check_failover cfg env P pool :
  stable cfg env P -> preserves P (check_failover cfg env pool).
Proof.
  intros (_ & _ & Htick & Hfail & _) w Pw.
  destruct (check_failover_outcomes cfg env pool w) as [E | [E | [C E]]];
    rewrite E; simpl; auto.
Qed.

Lemma preserves_check_error_rate cfg env P :
  stable cfg env P -> preserves P (check_error_rate cfg env).
Proof.
  intros (_ & _ & Htick & _ & Herr) w Pw.
  destruct (check_error_rate_outcomes cfg env w) as [E | [E | (L & C & rate & E)]];
    rewrite E; simpl; auto.
Qed.

Lemma preserves_process_log_entry cfg env P log_entry :
  stable cfg env P -> preserves P (process_log_entry cfg env log_entry).
Proof.
  intros St. pose proof St as (Hcount & Hpush & _).
  unfold process_log_entry.
  destruct (bool_decide (log_entry = ∅)); [apply preserves_ret |].
  apply preserves_bind; [apply preserves_modify; exact Hcount | intros _].
  apply preserves_bind.
  { destruct (truthy _); [| apply preserves_ret].
    apply preserves_bind; [| intros _; apply preserves_ret].
    apply preserves_check_failover. exact St. }
  intros _.
  apply preserves_bind; [apply preserves_lift | intros is_error].
  apply preserves_bind; [apply preserves_modify; apply Hpush | intros _].
  apply preserves_bind; [apply preserves_get | intros s].
  destruct (20 <=? length (request_window s))%nat; [| apply preserves_ret].
  apply preserves_bind; [| intros _; apply preserves_ret].
  apply preserves_check_error_rate. exact St.
Qed.

Lemma preserves_tail_logs cfg env P lines :
  stable cfg env P -> preserves P (tail_logs_subprocess cfg env lines).
Proof.
  intros St. induction lines as [| line rest IH]; simpl.
  - apply preserves_ret.
  - apply preserves_bind; [| intros _; exact IH].
    destruct line as [| log_entry]; simpl; [apply preserves_ret |].
    destruct (bool_decide (log_entry = ∅)); [apply preserves_ret |].
    apply preserves_process_log_entry. exact St.
Qed.

(** An invariant that holds after the startup notification and that
    every step keeps holds after any run of [main]. *)
Lemma main_invariant cfg env P lines :
  P (started cfg env) -> stable cfg env P -> P (snd (main cfg env lines)).
Proof.
  intros H0 St. unfold main, bind, startup.
  rewrite send_slack_alert_eq.
  apply (preserves_tail_logs cfg env P lines St). exact H0.
Qed.

Lemma notified_app (alert_type : string) (tr1 tr2 : list IO) :
  notified alert_type (tr1 ++ tr2) = notified alert_type tr1 ++ notified alert_type tr2.
Proof.
  induction tr1 as [| e tr1 IH]; simpl; [reflexivity |].
  destruct e as [t | ty m o]; [exact IH |].
  destruct (String.eqb ty alert_type); simpl; congruence.
Qed.

Lemma alert_times_tick (alert_type : string) (tr : list IO) (t : Q) :
  alert_times alert_type (tr ++ [TimeRead t]) = alert_times alert_type tr.
Proof. unfold alert_times. rewrite fold_left_app. reflexivity. Qed.

Lemma alert_times_alert (alert_type ty : string) (tr : list IO) (t : Q) m o :
  alert_times alert_type (tr ++ [TimeRead t; Notify ty m o]) =
  if String.eqb ty alert_type
  then alert_times alert_type tr ++ [t]
  else alert_times alert_type tr.
Proof.
  unfold alert_times. rewrite fold_left_app. simpl.
  destruct (String.eqb ty alert_type); reflexivity.
Qed.

Lemma Sorted_snoc {A} (R : A -> A -> Prop) (l : list A) (x : A) :
  Sorted R l -> (forall y, last l = Some y -> R y x) -> Sorted R (l ++ [x]).
Proof.
  induction l as [| a l IH]; intros S L; simpl.
  - repeat constructor.
  - apply Sorted_inv in S as [S H]. constructor.
    + apply IH; [exact S |]. intros y Hy. apply L.
      destruct l; [discriminate | exact Hy].
    + destruct l as [| b l]; simpl.
      * constructor. apply L. reflexivity.
      * constructor. inversion H. assumption.
Qed.

Lemma apart_trans (cooldown : Z) :
  0 <= cooldown -> Transitive (apart cooldown).
Proof.
  intros H a b c Hab Hbc. unfold apart in *.
  assert (0 <= inject_Z cooldown)%Q by (change 0%Q with (inject_Z 0); rewrite <- Zle_Qle; exact H).
  lra.
Qed.

Lemma alert_times_length (alert_type : string) (tr : list IO) :
  length (alert_times alert_type tr) = length (notified alert_type tr).
Proof.
  unfold alert_times.
  assert (G : forall acc,
             length (snd (fold_left (scan_step alert_type) tr acc))
             = (length (snd acc) + length (notified alert_type tr))%nat).
  { induction tr as [| e tr IH]; intros acc; simpl; [lia |].
    rewrite IH. destruct e as [t | ty m o]; simpl; [reflexivity |].
    destruct (String.eqb ty alert_type); simpl; [| reflexivity].
    rewrite length_app. simpl. lia. }
  rewrite G. reflexivity.
Qed.

Lemma StronglySorted_lookup {A} (R : A -> A -> Prop) (l : list A) i j a b :
  StronglySorted R l -> (i < j)%nat ->
  l !! i = Some a -> l !! j = Some b -> R a b.
Proof.
  intros S. revert i j. induction S as [| x l S IH F]; intros i j Hij Hi Hj.
  - discriminate.
  - destruct j as [| j]; [lia |]. simpl in Hj.
    destruct i as [| i]; simpl in Hi.
    + injection Hi as <-. rewrite Forall_forall in F. apply F.
      rewrite list_elem_of_lookup. eauto.
    + apply (IH i j); [lia | assumption | assumption].
Qed.

Lemma StronglySorted_sublist {A} (R : A -> A -> Prop) (l k : list A) :
  l `sublist_of` k -> StronglySorted R k -> StronglySorted R l.
Proof.
  intros Hsub. induction Hsub as [| x l k Hsub IH | x l k Hsub IH]; intros S.
  - constructor.
  - apply StronglySorted_inv in S as [S F]. constructor; [apply IH; exact S |].
    rewrite Forall_forall in *. intros y Hy. apply F.
    apply (elem_of_sublist _ _ _ Hy Hsub).
  - apply StronglySorted_inv in S as [S _]. apply IH. exact S.
Qed.

Lemma delivered_among_alerts (alert_type : string) (tr : list IO) :
  delivered_times alert_type tr `sublist_of` alert_times alert_type tr.
Proof.
  unfold delivered_times, alert_times.
  assert (G : forall acc acc',
             fst acc = fst acc' -> snd acc `sublist_of` snd acc' ->
             fst (fold_left (delivered_step alert_type) tr acc)
             = fst (fold_left (scan_step alert_type) tr acc') /\
             snd (fold_left (delivered_step alert_type) tr acc)
               `sublist_of` snd (fold_left (scan_step alert_type) tr acc')).
  { induction tr as [| e tr IH]; intros acc acc' Hf Hs; simpl; [auto |].
    apply IH; destruct e as [t | ty m o]; simpl; auto.
    - destruct (String.eqb ty alert_type); simpl; [| exact Hf].
      destruct (delivered o); simpl; exact Hf.
    - destruct (String.eqb ty alert_type); simpl; [| exact Hs].
      destruct (delivered o); simpl.
      + rewrite Hf. apply sublist_app; [exact Hs | reflexivity].
      + apply sublist_inserts_r. exact Hs. }
  apply G; reflexivity.
Qed.

Lemma stable_failover_cooldown cfg env :
  stable cfg env (cooldown_kept cfg "failover" last_failover_alert).
Proof.
  unfold stable, cooldown_kept. repeat apply conj.
  - intros w H. exact H.
  - intros b w H. exact H.
  - intros w [S L]. simpl. rewrite alert_times_tick. split; assumption.
  - intros pool w [S L] C. simpl. rewrite alert_times_alert. simpl. split.
    + apply Sorted_snoc; [exact S |]. intros y Hy.
      rewrite (L y Hy). exact C.
    + intros t Ht. rewrite last_snoc in Ht. congruence.
  - intros rate w [S L] _ _. simpl. rewrite alert_times_alert. simpl.
    split; assumption.
Qed.

Lemma stable_error_rate_cooldown cfg env :
  stable cfg env (cooldown_kept cfg "error_rate" last_error_rate_alert).
Proof.
  unfold stable, cooldown_kept. repeat apply conj.
  - intros w H. exact H.
  - intros b w H. exact H.
  - intros w [S L]. simpl. rewrite alert_times_tick. split; assumption.
  - intros pool w [S L] _. simpl. rewrite alert_times_alert. simpl.
    split; assumption.
  - intros rate w [S L] _ C. simpl. rewrite alert_times_alert. simpl. split.
    + apply Sorted_snoc; [exact S |]. intros y Hy.
      rewrite (L y Hy). exact C.
    + intros t Ht. rewrite last_snoc in Ht. congruence.
Qed.

Lemma started_cooldown_kept cfg env alert_type stamp :
  alert_type = "failover" \/ alert_type = "error_rate" ->
  cooldown_kept cfg alert_type stamp (started cfg env).
Proof.
  intros [-> | ->]; unfold cooldown_kept, started, alert_times; simpl;
    (split; [constructor | discriminate]).
Qed.

(** ** Cooldown *)

(** C3.  In every run, over any sequence of records, the alerts of one
    detector are a cooldown apart: each alert comes at least
    [alert_cooldown] after the previous alert of the same detector, and
    with a non-negative cooldown so do any two of them, in particular
    any two that Slack accepted.  An attempt that returns without
    alerting leaves the detector's timestamp and its alerts as they
    were.  The time of an alert is the clock reading its detector took
    just before sending it. *)
Theorem alerts_a_cooldown_apart :
  forall cfg env lines alert_type,
    alert_type = "failover" \/ alert_type = "error_rate" ->
    let tr := trace (snd (main cfg env lines)) in
    let times := alert_times alert_type tr in
    length times = length (notified alert_type tr) /\
    Sorted (apart (alert_cooldown cfg)) times /\
    (0 <= alert_cooldown cfg ->
     forall i j a b,
       (i < j)%nat -> times !! i = Some a -> times !! j = Some b ->
       (inject_Z (alert_cooldown cfg) <= b - a)%Q) /\
    (forall pool w,
       let r := check_failover cfg env pool w in
       fst r = Ok false ->
       last_failover_alert (self (snd r)) = last_failover_alert (self w) /\
       alert_times "failover" (trace (snd r)) = alert_times "failover" (trace w)) /\
    (forall w,
       let r := check_error_rate cfg env w in
       fst r = Ok false ->
       last_error_rate_alert (self (snd r)) = last_error_rate_alert (self w) /\
       alert_times "error_rate" (trace (snd r)) = alert_times "error_rate" (trace w)) /\
    (0 <= alert_cooldown cfg ->
     forall i j a b,
       (i < j)%nat ->
       delivered_times alert_type tr !! i = Some a ->
       delivered_times alert_type tr !! j = Some b ->
       (inject_Z (alert_cooldown cfg) <= b - a)%Q).
Proof.
  intros cfg env lines alert_type Hty tr times.
  assert (S : Sorted (apart (alert_cooldown cfg)) times).
  { subst times tr. destruct Hty as [-> | ->].
    - apply (main_invariant cfg env
               (cooldown_kept cfg "failover" last_failover_alert)).
      + apply started_cooldown_kept. left. reflexivity.
      + apply stable_failover_cooldown.
    - apply (main_invariant cfg env
               (cooldown_kept cfg "error_rate" last_error_rate_alert)).
      + apply started_cooldown_kept. right. reflexivity.
      + apply stable_error_rate_cooldown. }
  split; [apply alert_times_length |].
  split; [exact S |].
  split; [| split; [| split]].
  - intros Hc i j a b Hij Hi Hj.
    apply (StronglySorted_lookup (apart (alert_cooldown cfg)) times i j a b);
      try assumption.
    apply Sorted_StronglySorted; [apply apart_trans; exact Hc | exact S].
  - intros pool w r Hr. subst r.
    destruct (check_failover_outcomes cfg env pool w) as [E | [E | [_ E]]];
      rewrite E in *; simpl in *.
    + split; reflexivity.
    + split; [reflexivity | apply alert_times_tick].
    + discriminate.
  - intros w r Hr. subst r.
    destruct (check_error_rate_outcomes cfg env w)
      as [E | [E | (_ & _ & rate & E)]]; rewrite E in *; simpl in *.
    + split; reflexivity.
    + split; [reflexivity | apply alert_times_tick].
    + discriminate.
  - intros Hc i j a b Hij Hi Hj.
    apply (StronglySorted_lookup (apart (alert_cooldown cfg))
             (delivered_times alert_type tr) i j a b); try assumption.
    apply (StronglySorted_sublist _ _ times).
    + apply delivered_among_alerts.
    + apply Sorted_StronglySorted; [apply apart_trans; exact Hc | exact S].
Qed.

Lemma alerts_a_cooldown_apart_witness :
  let tr := trace (snd (main slack_config steady_env sample_log)) in
  alert_times "failover" tr = [1000; 1301]%Q /\
  (inject_Z (alert_cooldown slack_config) <= 1301 - 1000)%Q /\
  (let w := snd (check_failover slack_config steady_env (PyStr "green")
                   (init_world slack_config)) in
   let r := check_failover slack_config steady_env (PyStr "blue") w in
   last_failover_alert (self (snd r)) = last_failover_alert (self w) /\
   alert_times "failover" (trace (snd r)) = alert_times "failover" (trace w)) /\
  (let w := with_window (repeat true 19) (init_world slack_config) in
   let r := check_error_rate slack_config steady_env w in
   last_error_rate_alert (self (snd r)) = last_error_rate_alert (self w) /\
   alert_times "error_rate" (trace (snd r)) = alert_times "error_rate" (trace w)) /\
  (delivered_times "failover" tr = [1000; 1301]%Q /\
   (inject_Z (alert_cooldown slack_config) <= 1301 - 1000)%Q).
Proof.
  intros tr.
  destruct (alerts_a_cooldown_apart slack_config steady_env sample_log "failover")
    as (_ & _ & pairs & quiet & _ & posted).
  { left. reflexivity. }
  destruct (alerts_a_cooldown_apart slack_config steady_env sample_log "error_rate")
    as (_ & _ & _ & _ & quiet' & _).
  { right. reflexivity. }
  split; [reflexivity |].
  split; [| split; [| split]].
  - apply (pairs ltac:(discriminate) 0%nat 1%nat 1000%Q 1301%Q).
    + lia.
    + reflexivity.
    + reflexivity.
  - apply quiet. reflexivity.
  - apply quiet'. reflexivity.
  - split; [reflexivity |].
    apply (posted ltac:(discriminate) 0%nat 1%nat 1000%Q 1301%Q).
    + lia.
    + reflexivity.
    + reflexivity.
Defined.

(** ** Bounds on the window *)





(** ** The error rate of the window *)




(** ** A window too small to alert *)

Lemma stable_quiet_small_window cfg env :
  (window_size cfg < 20)%nat ->
  stable cfg env
    (fun w => (length (request_window (self w)) <= window_size cfg)%nat /\
              notified "error_rate" (trace w) = []).
Proof.
  intros Hsmall. unfold stable. repeat apply conj.
  - intros w H. exact H.
  - intros b w [L N]. split; [| exact N].
    simpl. apply deque_append_length. exact L.
  - intros w [L N]. split; [exact L |].
    simpl. rewrite notified_app, N. reflexivity.
  - intros pool w [L N] _. split; [exact L |].
    simpl. rewrite notified_app, N. reflexivity.
  - intros rate w [L N] Hfull _. lia.
Qed.

(** C10.  With a window capacity under 20 the error-rate detector never
    alerts: the window never grows past its capacity, so the guard that
    asks for 20 entries always returns first. *)
Theorem small_window_never_alerts :
  forall cfg,
    (window_size cfg < 20)%nat ->
    (forall env lines,
       notified "error_rate" (trace (snd (main cfg env lines))) = [] /\
       alert_times "error_rate" (trace (snd (main cfg env lines))) = []) /\
    (forall env w,
       (length (request_window (self w)) <= window_size cfg)%nat ->
       check_error_rate cfg env w = (Ok false, w)) /\
    (forall xs, (length (pushes (window_size cfg) xs) < 20)%nat).
Proof.
  intros cfg Hsmall. repeat apply conj.
  - intros env lines.
    assert (N : notified "error_rate" (trace (snd (main cfg env lines))) = []).
    { apply (main_invariant cfg env
               (fun w => (length (request_window (self w)) <= window_size cfg)%nat /\
                         notified "error_rate" (trace w) = [])).
      - split; [simpl; lia | reflexivity].
      - apply stable_quiet_small_window. exact Hsmall. }
    split; [exact N |].
    apply length_zero_iff_nil. rewrite alert_times_length, N. reflexivity.
  - intros env w L. apply check_error_rate_few. lia.
  - intros xs. rewrite pushes_length. lia.
Qed.

Lemma small_window_never_alerts_witness :
  notified "error_rate"
    (trace (snd (main small_window_config steady_env
                   (repeat (Json failed_request) 30)))) = [] /\
  (let w := with_window (repeat true 10) (init_world small_window_config) in
   check_error_rate small_window_config steady_env w = (Ok false, w)).
Proof.
  destruct (small_window_never_alerts small_window_config) as (run & guard & _).
  { simpl. lia. }
  split.
  - apply run.
  - intros w. apply guard. simpl. lia.
Defined.

(** ** Startup *)

Lemma stable_one_info cfg env :
  stable cfg env
    (fun w => notified "info" (trace w) = [WatcherStarted (active_pool cfg)]).
Proof.
  unfold stable. repeat apply conj.
  - intros w H. exact H.
  - intros b w H. exact H.
  - intros w H. simpl. rewrite notified_app, H. reflexivity.
  - intros pool w H _. simpl. rewrite notified_app, H. reflexivity.
  - intros rate w H _ _. simpl. rewrite notified_app, H. reflexivity.
Qed.

(** C8 (as amended).  On start [main] hands the notifier exactly one
    message, of kind "info", announcing the watcher and naming the
    initial pool, and no later step adds another.  The notifier treats
    it like any non-critical kind: it is posted when a webhook is
    configured and maintenance mode is off, muted in maintenance mode,
    and dropped without a webhook. *)
Theorem startup_notification :
  forall cfg env lines,
    let o := notify_outcome cfg env "info" (init_world cfg) in
    startup cfg env (init_world cfg) = (Ok (delivered o), started cfg env) /\
    trace (started cfg env) = [Notify "info" (WatcherStarted (active_pool cfg)) o] /\
    o = (if negb (webhook_configured cfg) then NoWebhook
         else if maintenance_mode cfg then Muted
         else Posted (webhook env 0)) /\
    posts (started cfg env)
      = (if webhook_configured cfg && negb (maintenance_mode cfg) then 1 else 0)%nat /\
    notified "info" (trace (snd (main cfg env lines)))
      = [WatcherStarted (active_pool cfg)].
Proof.
  intros cfg env lines o. repeat apply conj.
  - unfold startup. apply send_slack_alert_eq.
  - reflexivity.
  - subst o. unfold notify_outcome.
    destruct (webhook_configured cfg), (maintenance_mode cfg); reflexivity.
  - unfold started, after_notify, notify_outcome. simpl.
    destruct (webhook_configured cfg), (maintenance_mode cfg); reflexivity.
  - apply (main_invariant cfg env
             (fun w => notified "info" (trace w) = [WatcherStarted (active_pool cfg)])).
    + reflexivity.
    + apply stable_one_info.
Qed.

(** C8, the claim as written, fails in maintenance mode: with a webhook
    configured the startup message is muted like any other non-critical
    kind, and nothing is posted. *)
Lemma startup_muted_in_maintenance :
  webhook_configured maintenance_config = true /\
  maintenance_mode maintenance_config = true /\
  (let r := startup maintenance_config steady_env (init_world maintenance_config) in
   fst r = Ok false /\
   posts (snd r) = 0%nat /\
   trace (snd r) = [Notify "info" (WatcherStarted "blue") Muted]) /\
  (let r := startup slack_config steady_env (init_world slack_config) in
   fst r = Ok true /\
   trace (snd r) = [Notify "info" (WatcherStarted "blue") (Posted (Status 200))]).
Proof. vm_compute. repeat split. Qed.

(** ** The pool classifier *)


Lemma prefix_contains (p s : string) :
  String.prefix p s = true -> PyText.contains p s = true.
Proof.
  destruct s as [| a r]; simpl; intros H.
  - exact H.
  - rewrite H. reflexivity.
Qed.

(** Dropping the first character of the needle keeps it in the text. *)
Lemma contains_tail (c : ascii) (p s : string) :
  PyText.contains (String c p) s = true -> PyText.contains p s = true.
Proof.
  induction s as [| a r IH].
  - simpl. discriminate.
  - intros H. change (PyText.contains (String c p) (String a r))
      with (String.prefix (String c p) (String a r)
            || PyText.contains (String c p) r) in H.
    change (PyText.contains p (String a r))
      with (String.prefix p (String a r) || PyText.contains p r).
    apply orb_true_iff in H as [H | H].
    + simpl in H. destruct (ascii_dec c a); [| discriminate].
      rewrite (prefix_contains p r H). apply orb_true_r.
    + rewrite (IH H). apply orb_true_r.
Qed.

Lemma port_with_or_without_colon (port s : string) :
  PyText.contains (String ":" port) s || PyText.contains port s
  = PyText.contains port s.
Proof.
  destruct (PyText.contains (String ":" port) s) eqn:E; [| reflexivity].
  simpl. symmetry. apply (contains_tail _ _ _ E).
Qed.

Lemma any_in_existsb (ips : list string) (last_addr : string) :
  any_in ips last_addr = existsb (fun ip => PyText.contains ip last_addr) ips.
Proof.
  induction ips as [| ip rest IH]; simpl; [reflexivity |].
  rewrite IH. destruct (PyText.contains ip last_addr); reflexivity.
Qed.

Lemma known_addresses (ips last_addr : string) :
  PyText.nonempty ips && any_in (csv_items ips) last_addr
  = existsb (fun ip => PyText.contains ip last_addr) (csv_items ips).
Proof.
  rewrite any_in_existsb. destruct ips; reflexivity.
Qed.

Lemma detect_pool_rules cfg (s : string) :
  detect_pool_from_upstream cfg (PyStr s) =
  if PyText.nonempty s
  then pool_of_token cfg (last_addr_of (PyText.lower s))
  else PyNone.
Proof.
  unfold detect_pool_from_upstream, pool_of_token, truthy, py_str.
  destruct (PyText.nonempty s); simpl; [| reflexivity].
  rewrite !port_with_or_without_colon, !known_addresses. reflexivity.
Qed.

(** *** The token the rules read *)












(** ** The error verdict *)



(** * Further properties of the watcher *)

(** ** The notifier *)

(** X1.  [send_slack_alert] never raises and never touches the watcher.
    It answers [True] exactly when a webhook is configured, the kind is
    not muted (maintenance mode off, or the kind is "critical") and
    Slack answers 200; it posts once when it gets that far and not at
    all otherwise. *)
Theorem send_slack_alert_delivers :
  forall cfg env message alert_type w,
    let r := send_slack_alert cfg env message alert_type w in
    (exists b,
       fst r = Ok b /\
       (b = true <->
        webhook_configured cfg = true /\
        (maintenance_mode cfg = false \/ alert_type = "critical") /\
        webhook env (posts w) = Status 200)) /\
    self (snd r) = self w /\
    clock_reads (snd r) = clock_reads w /\
    posts (snd r)
      = (if webhook_configured cfg
            && (negb (maintenance_mode cfg) || String.eqb alert_type "critical")
         then S (posts w) else posts w) /\
    exists o, trace (snd r) = trace w ++ [Notify alert_type message o].
Proof.
  intros cfg env message alert_type w r. subst r.
  rewrite send_slack_alert_eq. simpl. unfold notify_outcome.
  destruct (webhook_configured cfg); simpl.
  2:{ repeat split; eauto. exists false. split; [reflexivity |].
      split; [discriminate | intros (H & _); discriminate]. }
  destruct (maintenance_mode cfg); simpl.
  - destruct (String.eqb_spec alert_type "critical") as [E | N]; simpl.
    + repeat split; eauto. eexists. split; [reflexivity |].
      destruct (webhook env (posts w)) as [code |]; simpl.
      * destruct (Z.eqb_spec code 200) as [-> | Hc].
        -- split; auto.
        -- split; [discriminate |]. intros (_ & _ & H). congruence.
      * split; [discriminate |]. intros (_ & _ & H). discriminate.
    + repeat split; eauto. exists false. split; [reflexivity |].
      split; [discriminate |]. intros (_ & [H | H] & _); congruence.
  - replace (negb false || String.eqb alert_type "critical") with true
      by reflexivity.
    repeat split; eauto. eexists. split; [reflexivity |].
    destruct (webhook env (posts w)) as [code |]; simpl.
    + destruct (Z.eqb_spec code 200) as [-> | Hc].
      * split; auto.
      * split; [discriminate |]. intros (_ & _ & H). congruence.
    + split; [discriminate |]. intros (_ & _ & H). discriminate.
Qed.

(** ** The detectors leave each other alone *)

Lemma check_failover_strict cfg env pool w :
  let r := check_failover cfg env pool w in
  r = (Ok false, w) \/
  r = (Ok false, after_tick env w) \/
  (truthy pool = true /\ pool <> last_pool (self w) /\
   (inject_Z (alert_cooldown cfg)
      <= clock env (clock_reads w) - last_failover_alert (self w))%Q /\
   r = (Ok true, failover_world cfg env pool w)).
Proof.
  intros r. subst r.
  destruct (truthy pool) eqn:T.
  2:{ left. apply check_failover_noop. left. exact T. }
  destruct (decide (pool = last_pool (self w))) as [E | N].
  { left. apply check_failover_noop. right. exact E. }
  destruct (Qlt_le_dec (clock env (clock_reads w) - last_failover_alert (self w))
              (inject_Z (alert_cooldown cfg))) as [C | C].
  - right. left. apply check_failover_suppressed; assumption.
  - right. right. repeat split; try assumption.
    apply check_failover_fired; assumption.
Qed.

Lemma check_error_rate_strict cfg env w :
  let r := check_error_rate cfg env w in
  r = (Ok false, w) \/
  r = (Ok false, after_tick env w) \/
  (exists rate,
     (20 <= length (request_window (self w)))%nat /\
     error_rate (request_window (self w)) = Ok rate /\
     (error_rate_threshold cfg < rate)%Q /\
     (inject_Z (alert_cooldown cfg)
        <= clock env (clock_reads w) - last_error_rate_alert (self w))%Q /\
     r = (Ok true, error_rate_world cfg env rate w)).
Proof.
  intros r. subst r.
  destruct (Nat.lt_ge_cases (length (request_window (self w))) 20) as [L | L].
  { left. apply check_error_rate_few. exact L. }
  assert (NE : request_window (self w) <> [])
    by (intros E; rewrite E in L; simpl in L; lia).
  pose proof (error_rate_nonempty _ NE) as R.
  set (rate := (_ / _ * 100)%Q) in R.
  destruct (Qlt_le_dec (error_rate_threshold cfg) rate) as [G | G].
  2:{ left. apply (check_error_rate_low cfg env w rate); assumption. }
  destruct (Qlt_le_dec (clock env (clock_reads w) - last_error_rate_alert (self w))
              (inject_Z (alert_cooldown cfg))) as [C | C].
  - right. left. apply (check_error_rate_suppressed cfg env w rate); assumption.
  - right. right. exists rate. repeat split; try assumption.
    apply check_error_rate_fired; assumption.
Qed.

(** X2.  The two detectors are independent and total: [check_failover]
    returns a boolean and leaves the window, the error-rate timestamp
    and the request count alone; [check_error_rate] returns a boolean
    and leaves the pool, the failover timestamp, the window and the
    request count alone.  Each reads the clock at most once and calls
    the notifier exactly when it answers [True]. *)
Theorem detectors_are_independent :
  forall cfg env w,
    (forall pool,
       let r := check_failover cfg env pool w in
       (exists b,
          fst r = Ok b /\
          length (notified "failover" (trace (snd r)))
          = (length (notified "failover" (trace w)) + (if b then 1 else 0))%nat) /\
       request_window (self (snd r)) = request_window (self w) /\
       last_error_rate_alert (self (snd r)) = last_error_rate_alert (self w) /\
       log_count (self (snd r)) = log_count (self w) /\
       notified "error_rate" (trace (snd r)) = notified "error_rate" (trace w) /\
       (clock_reads (snd r) <= S (clock_reads w))%nat) /\
    (let r := check_error_rate cfg env w in
     (exists b,
        fst r = Ok b /\
        length (notified "error_rate" (trace (snd r)))
        = (length (notified "error_rate" (trace w)) + (if b then 1 else 0))%nat) /\
     request_window (self (snd r)) = request_window (self w) /\
     last_pool (self (snd r)) = last_pool (self w) /\
     last_failover_alert (self (snd r)) = last_failover_alert (self w) /\
     log_count (self (snd r)) = log_count (self w) /\
     notified "failover" (trace (snd r)) = notified "failover" (trace w) /\
     (clock_reads (snd r) <= S (clock_reads w))%nat).
Proof.
  intros cfg env w. split.
  - intros pool r. subst r.
    destruct (check_failover_strict cfg env pool w)
      as [E | [E | (_ & _ & _ & E)]]; rewrite E; simpl;
      rewrite ?notified_app; simpl; rewrite ?app_nil_r, ?length_app; simpl;
      repeat split; try reflexivity; try lia; eexists; split;
      try reflexivity; simpl; lia.
  - intros r. subst r.
    destruct (check_error_rate_strict cfg env w)
      as [E | [E | (rate & _ & _ & _ & _ & E)]]; rewrite E; simpl;
      rewrite ?notified_app; simpl; rewrite ?app_nil_r, ?length_app; simpl;
      repeat split; try reflexivity; try lia; eexists; split;
      try reflexivity; simpl; lia.
Qed.

(** ** Invariants, record by record *)

Lemma preserves_lift_bind {A B} (P : World -> Prop) (r : result A)
    (f : A -> M B) :
  (forall a, r = Ok a -> preserves P (f a)) -> preserves P (bind (lift r) f).
Proof.
  intros H w Pw. unfold bind, lift. destruct r as [a | e]; simpl.
  - apply (H a); [reflexivity | exact Pw].
  - exact Pw.
Qed.

(** A property kept by the steps that one record triggers is kept by
    [process_log_entry] on that record. *)
Lemma process_log_entry_keeps cfg env (P : World -> Prop) log_entry :
  (forall w, P w -> P (set_self count_request w)) ->
  preserves P (check_failover cfg env (pool_of_entry cfg log_entry)) ->
  (forall b w, verdict_of_entry log_entry = Ok b ->
               P w -> P (set_self (window_append cfg b) w)) ->
  preserves P (check_error_rate cfg env) ->
  preserves P (process_log_entry cfg env log_entry).
Proof.
  intros Hcount Hfail Hpush Herr. unfold process_log_entry.
  destruct (bool_decide (log_entry = ∅)); [apply preserves_ret |].
  apply preserves_bind; [apply preserves_modify; exact Hcount | intros _].
  apply preserves_bind.
  { fold (pool_of_entry cfg log_entry).
    destruct (truthy _); [| apply preserves_ret].
    apply preserves_bind; [exact Hfail | intros _; apply preserves_ret]. }
  intros _.
  apply preserves_lift_bind. intros is_error Hv.
  apply preserves_bind.
  { apply preserves_modify. intros w. apply Hpush. exact Hv. }
  intros _.
  apply preserves_bind; [apply preserves_get | intros s].
  destruct (20 <=? length (request_window s))%nat; [| apply preserves_ret].
  apply preserves_bind; [exact Herr | intros _; apply preserves_ret].
Qed.

Lemma tail_logs_keeps cfg env (P : World -> Prop) lines :
  (forall log_entry, In log_entry (processed lines) ->
                     preserves P (process_log_entry cfg env log_entry)) ->
  preserves P (tail_logs_subprocess cfg env lines).
Proof.
  induction lines as [| line rest IH]; intros H; simpl.
  - apply preserves_ret.
  - simpl in H. destruct (parse_log_line line) as [log_entry |].
    + destruct (bool_decide (log_entry = ∅)) eqn:E.
      * apply preserves_bind; [apply preserves_ret | intros _; apply IH; exact H].
      * apply preserves_bind.
        -- apply H. left. reflexivity.
        -- intros _. apply IH. intros e He. apply H. right. exact He.
    + apply preserves_bind; [apply preserves_ret | intros _; apply IH; exact H].
Qed.

Lemma main_keeps cfg env (P : World -> Prop) lines :
  P (started cfg env) ->
  (forall log_entry, In log_entry (processed lines) ->
                     preserves P (process_log_entry cfg env log_entry)) ->
  P (snd (main cfg env lines)).
Proof.
  intros H0 H. unfold main, bind, startup. rewrite send_slack_alert_eq.
  apply (tail_logs_keeps cfg env P lines H). exact H0.
Qed.

(** The same with what a detector knows when it alerts. *)
Lemma main_keeps_strict cfg env (P : World -> Prop) lines :
  P (started cfg env) ->
  (forall w, P w -> P (set_self count_request w)) ->
  (forall b w, P w -> P (set_self (window_append cfg b) w)) ->
  (forall w, P w -> P (after_tick env w)) ->
  (forall pool w,
     P w -> truthy pool = true -> pool <> last_pool (self w) ->
     P (failover_world cfg env pool w)) ->
  (forall rate w,
     P w ->
     (20 <= length (request_window (self w)))%nat ->
     error_rate (request_window (self w)) = Ok rate ->
     (error_rate_threshold cfg < rate)%Q ->
     P (error_rate_world cfg env rate w)) ->
  P (snd (main cfg env lines)).
Proof.
  intros H0 Hcount Hpush Htick Hfail Herr.
  apply main_keeps; [exact H0 |]. intros log_entry _.
  apply process_log_entry_keeps.
  - exact Hcount.
  - intros w Pw.
    destruct (check_failover_strict cfg env (pool_of_entry cfg log_entry) w)
      as [E | [E | (T & N & _ & E)]]; rewrite E; simpl; auto.
  - intros b w _. apply Hpush.
  - intros w Pw.
    destruct (check_error_rate_strict cfg env w)
      as [E | [E | (rate & L & R & G & _ & E)]]; rewrite E; simpl; eauto.
Qed.

(** ** What a run sends *)

Lemma Forall_snoc2 {A} (P : A -> Prop) (l : list A) (x y : A) :
  Forall P l -> P x -> P y -> Forall P (l ++ [x; y]).
Proof. intros Hl Hx Hy. apply Forall_app. split; [exact Hl | repeat constructor; assumption]. Qed.

(** X3.  Whatever the log holds, the watcher only ever sends the kinds
    "info", "failover" and "error_rate": the kinds "critical" and
    "recovery" that [send_slack_alert] knows are never used, so nothing
    the watcher sends gets past maintenance mode. *)
Theorem only_three_kinds_are_sent :
  forall cfg env lines,
    Forall (kind_among ["info"; "failover"; "error_rate"])
           (trace (snd (main cfg env lines))) /\
    notified "critical" (trace (snd (main cfg env lines))) = [] /\
    notified "recovery" (trace (snd (main cfg env lines))) = [].
Proof.
  intros cfg env lines.
  apply (main_invariant cfg env
           (fun w => Forall (kind_among ["info"; "failover"; "error_rate"]) (trace w) /\
                     notified "critical" (trace w) = [] /\
                     notified "recovery" (trace w) = [])).
  - simpl. split; [| split; reflexivity].
    constructor; [simpl; auto | constructor].
  - unfold stable. repeat apply conj.
    + intros w H. exact H.
    + intros b w H. exact H.
    + intros w (F & C & R). simpl. rewrite !notified_app, C, R.
      split; [| split; reflexivity].
      apply Forall_app. split; [exact F |]. constructor; [exact I | constructor].
    + intros pool w (F & C & R) _. simpl. rewrite !notified_app, C, R.
      split; [| split; reflexivity].
      apply Forall_snoc2; simpl; auto.
    + intros rate w (F & C & R) _ _. simpl. rewrite !notified_app, C, R.
      split; [| split; reflexivity].
      apply Forall_snoc2; simpl; auto.
Qed.

Lemma posted_count_app (tr1 tr2 : list IO) :
  posted_count (tr1 ++ tr2) = (posted_count tr1 + posted_count tr2)%nat.
Proof.
  induction tr1 as [| e tr1 IH]; simpl; [reflexivity |].
  destruct e as [t | ty m [| | r]]; simpl; lia.
Qed.

Lemma notify_outcome_quiet cfg env alert_type w :
  maintenance_mode cfg = true \/ webhook_configured cfg = false ->
  String.eqb alert_type "critical" = false ->
  notify_outcome cfg env alert_type w = NoWebhook \/
  notify_outcome cfg env alert_type w = Muted.
Proof.
  intros H Hk. unfold notify_outcome. rewrite Hk.
  destruct (webhook_configured cfg); simpl; [| left; reflexivity].
  destruct H as [-> | H]; [right; reflexivity | discriminate].
Qed.

(** X4.  The counter of HTTP posts agrees with the trace in every run,
    and a watcher in maintenance mode, or without a webhook, never
    posts anything to Slack, whatever the log holds. *)
Theorem muted_watcher_never_posts :
  forall cfg env lines,
    let w := snd (main cfg env lines) in
    posts w = posted_count (trace w) /\
    (maintenance_mode cfg = true \/ webhook_configured cfg = false ->
     posts w = 0%nat /\
     forall alert_type m o, In (Notify alert_type m o) (trace w) ->
                            o = NoWebhook \/ o = Muted).
Proof.
  intros cfg env lines w. subst w. split.
  - apply (main_invariant cfg env (fun w => posts w = posted_count (trace w))).
    + unfold started, after_notify. simpl.
      destruct (notify_outcome cfg env "info" (init_world cfg)); reflexivity.
    + unfold stable. repeat apply conj.
      * intros w H. exact H.
      * intros b w H. exact H.
      * intros w H. simpl. rewrite posted_count_app. simpl. lia.
      * intros pool w H _. simpl. rewrite posted_count_app. simpl.
        destruct (notify_outcome cfg env "failover" w); lia.
      * intros rate w H _ _. simpl. rewrite posted_count_app. simpl.
        destruct (notify_outcome cfg env "error_rate" w); lia.
  - intros Hq.
    apply (main_invariant cfg env
             (fun w => posts w = 0%nat /\
                       forall alert_type m o,
                         In (Notify alert_type m o) (trace w) ->
                         o = NoWebhook \/ o = Muted)).
    + unfold started, after_notify. simpl.
      destruct (notify_outcome_quiet cfg env "info" (init_world cfg) Hq eq_refl)
        as [E | E]; rewrite E; split; try reflexivity;
        intros ty m o [H | []]; injection H as _ _ <-; auto.
    + unfold stable. repeat apply conj.
      * intros w H. exact H.
      * intros b w H. exact H.
      * intros w [Hp Ho]. split; [exact Hp |]. simpl.
        intros ty m o Hin. apply in_app_iff in Hin as [Hin | [Hin | []]];
          [eauto | discriminate].
      * intros pool w [Hp Ho] _. simpl.
        destruct (notify_outcome_quiet cfg env "failover" w Hq eq_refl)
          as [E | E]; rewrite E; (split; [exact Hp |]);
          intros ty m o Hin;
          apply in_app_iff in Hin as [Hin | [Hin | [Hin | []]]];
          try discriminate; eauto; injection Hin as _ _ <-; auto.
      * intros rate w [Hp Ho] _ _. simpl.
        destruct (notify_outcome_quiet cfg env "error_rate" w Hq eq_refl)
          as [E | E]; rewrite E; (split; [exact Hp |]);
          intros ty m o Hin;
          apply in_app_iff in Hin as [Hin | [Hin | [Hin | []]]];
          try discriminate; eauto; injection Hin as _ _ <-; auto.
Qed.

Lemma muted_watcher_never_posts_witness :
  posts (snd (main maintenance_config steady_env sample_log)) = 0%nat /\
  posts (snd (main default_config offline_env sample_log)) = 0%nat.
Proof.
  split.
  - apply (muted_watcher_never_posts maintenance_config steady_env sample_log).
    left. reflexivity.
  - apply (muted_watcher_never_posts default_config offline_env sample_log).
    right. reflexivity.
Defined.

Lemma chained_snoc (from : PyVal) (messages : list Message) (mid pool : PyVal) :
  chained from messages mid ->
  pool <> mid -> truthy pool = true ->
  chained from (messages ++ [FailoverDetected mid pool]) pool.
Proof.
  revert from. induction messages as [| m rest IH]; intros from H N T; simpl in *.
  - subst mid. repeat split; auto.
  - destruct m as [p | old_pool p | r t e c wd cur]; try contradiction.
    destruct H as (H1 & H2 & H3 & H4). repeat split; auto.
Qed.

(** X5.  In every run the failover alerts hand over from one to the
    next: the first names the configured active pool as the previous
    pool, each later one names the pool the alert before it moved to,
    every alert moves to a known pool different from the previous one,
    and the pool the watcher holds at the end is the one the last alert
    moved to (the active pool when there was none). *)
Theorem failover_alerts_are_chained :
  forall cfg env lines,
    let w := snd (main cfg env lines) in
    chained (PyStr (active_pool cfg)) (notified "failover" (trace w))
            (last_pool (self w)).
Proof.
  intros cfg env lines w. subst w.
  apply (main_keeps_strict cfg env
           (fun w => chained (PyStr (active_pool cfg))
                       (notified "failover" (trace w)) (last_pool (self w)))).
  - reflexivity.
  - intros w H. exact H.
  - intros b w H. exact H.
  - intros w H. simpl. rewrite notified_app. simpl. rewrite app_nil_r. exact H.
  - intros pool w H T N. simpl. rewrite notified_app. simpl.
    apply chained_snoc; assumption.
  - intros rate w H _ _ _. simpl. rewrite notified_app. simpl.
    rewrite app_nil_r. exact H.
Qed.



(** ** What a run keeps of the log *)

Lemma check_failover_books cfg env pool w :
  exists b w',
    check_failover cfg env pool w = (Ok b, w') /\
    request_window (self w') = request_window (self w) /\
    log_count (self w') = log_count (self w).
Proof.
  destruct (check_failover_strict cfg env pool w)
    as [E | [E | (_ & _ & _ & E)]]; rewrite E; eauto.
Qed.

Lemma check_error_rate_books cfg env w :
  exists b w',
    check_error_rate cfg env w = (Ok b, w') /\
    request_window (self w') = request_window (self w) /\
    log_count (self w') = log_count (self w).
Proof.
  destruct (check_error_rate_strict cfg env w)
    as [E | [E | (rate & _ & _ & _ & _ & E)]]; rewrite E; eauto.
Qed.

Lemma bind_ok {A B} (m : M A) (f : A -> M B) w a w' :
  m w = (Ok a, w') -> bind m f w = f a w'.
Proof. intros E. unfold bind. rewrite E. reflexivity. Qed.

Lemma bind_raise {A B} (m : M A) (f : A -> M B) w e w' :
  m w = (Raise e, w') -> bind m f w = (Raise e, w').
Proof. intros E. unfold bind. rewrite E. reflexivity. Qed.

(** One record: the request count goes up by one; with a verdict the
    record ends normally and the verdict is appended to the window,
    without one the exception leaves and the window is untouched. *)
Lemma process_log_entry_result cfg env log_entry w :
  log_entry <> ∅ ->
  exists w',
    process_log_entry cfg env log_entry w
    = (match verdict_of_entry log_entry with
       | Ok _ => Ok tt
       | Raise e => Raise e
       end, w') /\
    log_count (self w') = S (log_count (self w)) /\
    request_window (self w')
    = match verdict_of_entry log_entry with
      | Ok b => deque_append (window_size cfg) (request_window (self w)) b
      | Raise _ => request_window (self w)
      end.
Proof.
  intros NE. unfold process_log_entry.
  rewrite bool_decide_eq_false_2 by exact NE.
  fold (pool_of_entry cfg log_entry). fold (verdict_of_entry log_entry).
  erewrite bind_ok by reflexivity.
  set (w1 := set_self count_request w).
  assert (B1 : request_window (self w1) = request_window (self w) /\
               log_count (self w1) = S (log_count (self w))) by (split; reflexivity).
  clearbody w1. destruct B1 as [W1 L1].
  assert (F : exists w2,
             (if truthy (pool_of_entry cfg log_entry)
              then bind (check_failover cfg env (pool_of_entry cfg log_entry))
                     (fun _ => ret tt)
              else ret tt) w1 = (Ok tt, w2) /\
             request_window (self w2) = request_window (self w1) /\
             log_count (self w2) = log_count (self w1)).
  { destruct (truthy (pool_of_entry cfg log_entry)).
    - destruct (check_failover_books cfg env (pool_of_entry cfg log_entry) w1)
        as (b & w2 & E & HW & HL).
      exists w2. rewrite (bind_ok _ _ _ _ _ E). auto.
    - exists w1. auto. }
  destruct F as (w2 & E2 & W2 & L2). rewrite (bind_ok _ _ _ _ _ E2).
  destruct (verdict_of_entry log_entry) as [b | e].
  2:{ exists w2. erewrite bind_raise by reflexivity. repeat split; congruence. }
  erewrite bind_ok by reflexivity.
  erewrite bind_ok by reflexivity.
  set (w3 := set_self (window_append cfg b) w2).
  assert (B3 : request_window (self w3)
               = deque_append (window_size cfg) (request_window (self w)) b /\
               log_count (self w3) = S (log_count (self w))).
  { subst w3. simpl. rewrite W2, W1, L2, L1. split; reflexivity. }
  clearbody w3. destruct B3 as [W3 L3].
  erewrite bind_ok by reflexivity.
  destruct (20 <=? length (request_window (self w3)))%nat.
  - destruct (check_error_rate_books cfg env w3) as (b' & w4 & E & HW & HL).
    exists w4. rewrite (bind_ok _ _ _ _ _ E). repeat split; congruence.
  - exists w3. repeat split; assumption.
Qed.

Lemma verdict_raises (log_entry : gmap string PyVal) (e : exn) :
  verdict_of_entry log_entry = Raise e ->
  e = ValueError /\
  exists text,
    log_entry !! "status" = Some (PyStr text) /\
    text <> "" /\ int_of_string text = None.
Proof.
  unfold verdict_of_entry, is_error_of, dict_get.
  destruct (log_entry !! "status") as [[| n | text] |]; simpl.
  - discriminate.
  - destruct (negb (n =? 0)); [destruct (500 <=? n) |]; discriminate.
  - destruct text as [| c r]; simpl; [discriminate |].
    destruct (int_of_string (String c r)) as [n |] eqn:E.
    + destruct (500 <=? n); discriminate.
    + intros H. injection H as <-. split; [reflexivity |].
      exists (String c r). repeat split; [discriminate | exact E].
  - discriminate.
Qed.

Lemma tail_logs_step cfg env line rest w :
  tail_logs_subprocess cfg env (line :: rest) w =
  match parse_log_line line with
  | Some log_entry =>
      if bool_decide (log_entry = ∅) then tail_logs_subprocess cfg env rest w
      else bind (process_log_entry cfg env log_entry)
             (fun _ => tail_logs_subprocess cfg env rest) w
  | None => tail_logs_subprocess cfg env rest w
  end.
Proof.
  simpl. destruct (parse_log_line line) as [log_entry |]; [| reflexivity].
  destruct (bool_decide (log_entry = ∅)); reflexivity.
Qed.

(** The loop from any world: how far it gets, what it returns, and
    what it leaves in the request count and the window. *)
Lemma tail_logs_result cfg env lines w :
  exists res w',
    tail_logs_subprocess cfg env lines w = (res, w') /\
    (Forall well_formed (processed lines) /\ res = Ok tt \/
     ~ Forall well_formed (processed lines) /\ res = Raise ValueError) /\
    log_count (self w')
    = (log_count (self w) + length (attempted (processed lines)))%nat /\
    request_window (self w')
    = fold_left (deque_append (window_size cfg))
        (verdicts (attempted (processed lines))) (request_window (self w)).
Proof.
  revert w. induction lines as [| line rest IH]; intros w.
  - exists (Ok tt), w. simpl.
    split; [reflexivity |]. split; [| split; [lia | reflexivity]].
    left. split; [constructor | reflexivity].
  - rewrite tail_logs_step. simpl.
    destruct (parse_log_line line) as [log_entry |]; [| apply IH].
    destruct (bool_decide (log_entry = ∅)) eqn:Eempty; [apply IH |].
    apply bool_decide_eq_false in Eempty.
    destruct (process_log_entry_result cfg env log_entry w Eempty)
      as (w1 & E1 & L1 & W1).
    simpl. destruct (verdict_of_entry log_entry) as [b | e] eqn:V.
    + rewrite (bind_ok _ _ _ _ _ E1).
      destruct (IH w1) as (res & w' & E & D & L & W). exists res, w'.
      rewrite E, L, W, L1, W1. simpl. rewrite ?V. simpl.
      split; [reflexivity |]. split; [| split; [lia | reflexivity]].
      destruct D as [[D ->] | [D ->]].
      * left. split; [| reflexivity].
        constructor; [exists b; exact V | exact D].
      * right. split; [| reflexivity].
        intros H. apply D. inversion H. assumption.
    + rewrite (bind_raise _ _ _ _ _ E1).
      destruct (verdict_raises _ _ V) as [-> _].
      exists (Raise ValueError), w1. simpl. rewrite ?V. simpl.
      split; [reflexivity |]. split; [| split; [lia | exact W1]].
      right. split; [| reflexivity].
      intros H. inversion H as [| ? ? [b Hb] ?]. congruence.
Qed.

Lemma main_eq cfg env lines :
  main cfg env lines = tail_logs_subprocess cfg env lines (started cfg env).
Proof. unfold main, bind, startup. rewrite send_slack_alert_eq. reflexivity. Qed.

Lemma attempted_all (entries : list (gmap string PyVal)) :
  Forall well_formed entries -> attempted entries = entries.
Proof.
  induction 1 as [| e rest [b Hb] _ IH]; simpl; [reflexivity |].
  rewrite Hb, IH. reflexivity.
Qed.

Lemma verdicts_length (entries : list (gmap string PyVal)) :
  Forall well_formed entries -> length (verdicts entries) = length entries.
Proof.
  induction 1 as [| e rest [b Hb] _ IH]; simpl; [reflexivity |].
  rewrite Hb. simpl. rewrite IH. reflexivity.
Qed.

(** X7.  At the end of every run the request count is the number of
    records the run got to, and the window holds the verdicts of those
    records, in order, cut to the last [window_size]: lines that are
    not JSON or parse to an empty object leave no entry, and alerts
    never disturb the window.  When every record has a verdict the run
    gets to all of them. *)
Theorem window_keeps_the_verdicts :
  forall cfg env lines,
    let w := snd (main cfg env lines) in
    let got_to := attempted (processed lines) in
    log_count (self w) = length got_to /\
    request_window (self w) = pushes (window_size cfg) (verdicts got_to) /\
    (Forall well_formed (processed lines) ->
     got_to = processed lines /\
     length (verdicts got_to) = length (processed lines)).
Proof.
  intros cfg env lines w got_to. subst w got_to. rewrite main_eq.
  destruct (tail_logs_result cfg env lines (started cfg env))
    as (res & w' & E & _ & L & W).
  rewrite E. simpl. split; [exact L |]. split; [exact W |].
  intros H. rewrite (attempted_all _ H). split; [reflexivity |].
  apply verdicts_length. exact H.
Qed.

Lemma window_keeps_the_verdicts_witness :
  attempted (processed sample_log) = processed sample_log /\
  length (verdicts (attempted (processed sample_log))) = 3%nat.
Proof.
  apply (window_keeps_the_verdicts slack_config steady_env sample_log).
  repeat constructor; exists false; reflexivity.
Defined.


Lemma main_ends_normally cfg env lines :
  Forall well_formed (processed lines) -> fst (main cfg env lines) = Ok tt.
Proof.
  intros H. rewrite main_eq.
  destruct (tail_logs_result cfg env lines (started cfg env))
    as (res & w' & E & D & _). rewrite E. simpl.
  destruct D as [[_ ->] | [D _]]; [reflexivity | contradiction].
Qed.


Lemma tail_logs_app cfg env (a b : list Line) w :
  tail_logs_subprocess cfg env (a ++ b) w
  = bind (tail_logs_subprocess cfg env a)
      (fun _ => tail_logs_subprocess cfg env b) w.
Proof.
  revert w. induction a as [| line rest IH]; intros w; [reflexivity |].
  simpl. unfold bind in *.
  destruct (parse_log_line line) as [log_entry |]; [| apply IH].
  destruct (bool_decide (log_entry = ∅)); [apply IH |].
  destruct (process_log_entry cfg env log_entry w) as [[[] | e] w1];
    [apply IH | reflexivity].
Qed.

(** X9.  Runs compose: reading [a ++ b] is reading [a] and then, from
    the world reached, reading [b].  A run that has raised is over:
    whatever follows the failing line is never looked at. *)
Theorem runs_compose :
  forall cfg env a b,
    (fst (main cfg env a) = Ok tt ->
     main cfg env (a ++ b)
     = tail_logs_subprocess cfg env b (snd (main cfg env a))) /\
    (forall e, fst (main cfg env a) = Raise e ->
               main cfg env (a ++ b) = main cfg env a).
Proof.
  intros cfg env a b. rewrite !main_eq, tail_logs_app. unfold bind.
  destruct (tail_logs_subprocess cfg env a (started cfg env)) as [[[] | e] w].
  - split; [reflexivity | discriminate].
  - split; [discriminate | reflexivity].
Qed.

Lemma runs_compose_witness :
  main slack_config steady_env (sample_log ++ [Json green_request])
    = tail_logs_subprocess slack_config steady_env [Json green_request]
        (snd (main slack_config steady_env sample_log)) /\
  main slack_config steady_env ([Json bad_status_request] ++ sample_log)
    = main slack_config steady_env [Json bad_status_request].
Proof.
  split.
  - apply (runs_compose slack_config steady_env sample_log [Json green_request]).
    reflexivity.
  - apply (runs_compose slack_config steady_env [Json bad_status_request]
             sample_log) with (e := ValueError).
    reflexivity.
Defined.



(** ** Quiet traffic *)

Lemma check_error_rate_keeps_failover cfg env (P : World -> Prop) :
  (forall w, P w -> P (after_tick env w)) ->
  (forall rate w, P w ->
     (20 <= length (request_window (self w)))%nat ->
     error_rate (request_window (self w)) = Ok rate ->
     (error_rate_threshold cfg < rate)%Q ->
     P (error_rate_world cfg env rate w)) ->
  preserves P (check_error_rate cfg env).
Proof.
  intros Htick Herr w Pw.
  destruct (check_error_rate_strict cfg env w)
    as [E | [E | (rate & L & R & G & _ & E)]]; rewrite E; simpl; eauto.
Qed.

(** X11.  While every record is served by the pool the watcher already
    holds, or by a pool it cannot tell, no failover alert is sent and
    the pool it holds stays the configured active pool, whatever the
    clock, the statuses and the error rate do. *)
Theorem steady_pool_never_fails_over :
  forall cfg env lines,
    (forall log_entry,
       In log_entry (processed lines) ->
       pool_of_entry cfg log_entry = PyStr (active_pool cfg) \/
       truthy (pool_of_entry cfg log_entry) = false) ->
    let w := snd (main cfg env lines) in
    notified "failover" (trace w) = [] /\
    last_pool (self w) = PyStr (active_pool cfg) /\
    last_failover_alert (self w) = 0%Q.
Proof.
  intros cfg env lines H w. subst w.
  apply (main_keeps cfg env
           (fun w => notified "failover" (trace w) = [] /\
                     last_pool (self w) = PyStr (active_pool cfg) /\
                     last_failover_alert (self w) = 0%Q)).
  - repeat split.
  - intros log_entry Hin. apply process_log_entry_keeps.
    + intros w Pw. exact Pw.
    + intros w (N & L & T).
      rewrite check_failover_noop; [simpl; auto |].
      destruct (H log_entry Hin) as [E | E]; [right | left; exact E].
      rewrite E, L. reflexivity.
    + intros b w _ Pw. exact Pw.
    + apply check_error_rate_keeps_failover.
      * intros w (N & L & T). simpl. rewrite notified_app, N. auto.
      * intros rate w (N & L & T) _ _ _. simpl. rewrite notified_app, N. auto.
Qed.

Lemma steady_pool_never_fails_over_witness :
  notified "failover"
    (trace (snd (main slack_config steady_env
                   [Json failed_request; NotJson; Json blue_request]))) = [].
Proof.
  apply (steady_pool_never_fails_over slack_config steady_env
           [Json failed_request; NotJson; Json blue_request]).
  intros log_entry [<- | [<- | []]]; left; reflexivity.
Defined.

Lemma count_errors_all_false (window : list bool) :
  Forall (fun b => b = false) window -> count_errors window = 0%nat.
Proof.
  intros F. unfold count_errors.
  induction F as [| b l Hb _ IH]; [reflexivity |].
  subst b. rewrite filter_cons_False by discriminate. exact IH.
Qed.

Lemma error_rate_all_false (window : list bool) (rate : Q) :
  Forall (fun b => b = false) window ->
  error_rate window = Ok rate -> (rate == 0)%Q.
Proof.
  intros F R.
  pose proof (count_errors_all_false window F) as C.
  unfold error_rate, truediv in R. rewrite C in R.
  destruct (Z.of_nat (length window) =? 0); [discriminate |].
  injection R as <-. unfold Qeq. simpl. reflexivity.
Qed.

Lemma deque_append_Forall {A} (P : A -> Prop) (maxlen : nat) (d : list A) (x : A) :
  Forall P d -> P x -> Forall P (deque_append maxlen d x).
Proof.
  intros Hd Hx. unfold deque_append.
  assert (F : Forall P (d ++ [x])) by (apply Forall_app; split; auto).
  destruct (maxlen <? length (d ++ [x]))%nat; [| exact F].
  destruct (d ++ [x]); simpl; [constructor |]. inversion F. assumption.
Qed.

(** X12.  With a threshold that is not negative, traffic without errors
    never raises an error-rate alert: while every record's verdict is
    "no error", no such alert is sent and the error-rate timestamp
    stays 0. *)
Theorem error_free_traffic_never_alerts :
  forall cfg env lines,
    (0 <= error_rate_threshold cfg)%Q ->
    (forall log_entry,
       In log_entry (processed lines) ->
       verdict_of_entry log_entry = Ok false) ->
    let w := snd (main cfg env lines) in
    fst (main cfg env lines) = Ok tt /\
    notified "error_rate" (trace w) = [] /\
    last_error_rate_alert (self w) = 0%Q /\
    count_errors (request_window (self w)) = 0%nat.
Proof.
  intros cfg env lines Hthr H w. subst w. split.
  { apply main_ends_normally.
    apply Forall_forall. intros e He. exists false. apply H.
    apply list_elem_of_In. exact He. }
  assert (G : let w := snd (main cfg env lines) in
              Forall (fun b => b = false) (request_window (self w)) /\
              notified "error_rate" (trace w) = [] /\
              last_error_rate_alert (self w) = 0%Q).
  { apply (main_keeps cfg env
             (fun w => Forall (fun b => b = false) (request_window (self w)) /\
                       notified "error_rate" (trace w) = [] /\
                       last_error_rate_alert (self w) = 0%Q)).
    - repeat split. constructor.
    - intros log_entry Hin. apply process_log_entry_keeps.
      + intros w Pw. exact Pw.
      + intros w (F & N & T).
        destruct (check_failover_strict cfg env (pool_of_entry cfg log_entry) w)
          as [E | [E | (_ & _ & _ & E)]]; rewrite E; simpl;
          rewrite ?notified_app, ?N; auto.
      + intros b w Hv (F & N & T). rewrite (H log_entry Hin) in Hv.
        injection Hv as <-. simpl. split; [| auto].
        apply deque_append_Forall; [exact F | reflexivity].
      + apply check_error_rate_keeps_failover.
        * intros w (F & N & T). simpl. rewrite notified_app, N. auto.
        * intros rate w (F & N & T) _ R Hgt. exfalso.
          pose proof (error_rate_all_false _ _ F R) as Z0. lra. }
  destruct G as (F & N & T). split; [exact N |]. split; [exact T |].
  apply count_errors_all_false. exact F.
Qed.

Lemma error_free_traffic_never_alerts_witness :
  fst (main slack_config steady_env sample_log) = Ok tt /\
  notified "error_rate" (trace (snd (main slack_config steady_env sample_log))) = [] /\
  last_error_rate_alert (self (snd (main slack_config steady_env sample_log))) = 0%Q /\
  count_errors (request_window (self (snd (main slack_config steady_env sample_log))))
    = 0%nat.
Proof.
  apply (error_free_traffic_never_alerts slack_config steady_env sample_log).
  - discriminate.
  - intros log_entry [<- | [<- | [<- | []]]]; reflexivity.
Defined.

(** ** More on the window *)

(** X13.  The window forgets: once [capacity] further verdicts have
    been pushed, what was pushed before has no influence on its
    contents, hence none on the error rate.  With a capacity of at
    least one the newest verdict is always the last entry; with
    capacity 0 the window stays empty. *)
Theorem window_forgets :
  forall capacity xs ys,
    ((capacity <= length ys)%nat ->
     pushes capacity (xs ++ ys) = pushes capacity ys /\
     error_rate (pushes capacity (xs ++ ys)) = error_rate (pushes capacity ys)) /\
    (forall y, (1 <= capacity)%nat -> last (pushes capacity (xs ++ [y])) = Some y) /\
    pushes 0 xs = [].
Proof.
  intros capacity xs ys. split; [| split].
  - intros H.
    assert (E : pushes capacity (xs ++ ys) = pushes capacity ys).
    { rewrite !pushes_drop, length_app.
      replace (length xs + length ys - capacity)%nat
        with (length xs + (length ys - capacity))%nat by lia.
      rewrite drop_app_add'; reflexivity. }
    rewrite E. split; reflexivity.
  - intros y H. rewrite pushes_drop, length_app. simpl.
    rewrite drop_app_le by lia. apply last_snoc.
  - rewrite pushes_drop. rewrite Nat.sub_0_r. apply drop_all.
Qed.

Lemma window_forgets_witness :
  pushes 2 ([true; true; true] ++ [false; false]) = pushes 2 [false; false] /\
  last (pushes 2 ([true; false] ++ [true])) = Some true.
Proof.
  destruct (window_forgets 2 [true; true; true] [false; false]) as (forget & _).
  destruct (window_forgets 2 [true; false] []) as (_ & newest & _).
  split.
  - apply forget. simpl. lia.
  - apply newest. lia.
Defined.

(** ** More on the classifier *)

Lemma lower_char_idempotent (c : ascii) :
  PyText.lower_char (PyText.lower_char c) = PyText.lower_char c.
Proof. destruct c as [[] [] [] [] [] [] [] []]; reflexivity. Qed.

Lemma lower_idempotent (s : string) :
  PyText.lower (PyText.lower s) = PyText.lower s.
Proof.
  induction s as [| c r IH]; simpl; [reflexivity |].
  rewrite lower_char_idempotent, IH. reflexivity.
Qed.

Lemma lower_nonempty (s : string) :
  PyText.nonempty (PyText.lower s) = PyText.nonempty s.
Proof. destruct s; reflexivity. Qed.

Lemma lower_char_no_upper (c : ascii) : is_upper (PyText.lower_char c) = false.
Proof. destruct c as [[] [] [] [] [] [] [] []]; reflexivity. Qed.

(** X14.  The classifier does not look at the case of the address:
    an address and its lower-cased form get the same answer, and so do
    two addresses that differ only in case. *)
Theorem classification_ignores_case :
  forall cfg s t,
    detect_pool_from_upstream cfg (PyStr (PyText.lower s))
    = detect_pool_from_upstream cfg (PyStr s) /\
    (PyText.lower s = PyText.lower t ->
     detect_pool_from_upstream cfg (PyStr s)
     = detect_pool_from_upstream cfg (PyStr t)).
Proof.
  intros cfg s t. split.
  - rewrite !detect_pool_rules, lower_idempotent, lower_nonempty. reflexivity.
  - intros H. rewrite !detect_pool_rules, H.
    rewrite <- (lower_nonempty s), <- (lower_nonempty t), H. reflexivity.
Qed.

Lemma classification_ignores_case_witness :
  detect_pool_from_upstream default_config (PyStr "My-GREEN-App:3000")
  = detect_pool_from_upstream default_config (PyStr "my-green-app:3000").
Proof.
  apply (classification_ignores_case default_config).
  reflexivity.
Defined.

(** ** Statuses written as text *)








(** ** Known addresses and case *)

Lemma prefix_upper (p s : string) :
  String.prefix p s = true -> has_upper p = true -> has_upper s = true.
Proof.
  revert p. induction s as [| b r IH]; intros p Hp Hu.
  - destruct p; [discriminate Hu | discriminate Hp].
  - destruct p as [| a p']; [discriminate Hu |].
    simpl in Hp. destruct (ascii_dec a b) as [-> | _]; [| discriminate].
    simpl in *. apply orb_true_iff in Hu as [Hu | Hu].
    + rewrite Hu. reflexivity.
    + rewrite (IH p' Hp Hu). apply orb_true_r.
Qed.

Lemma contains_upper (ip t : string) :
  PyText.contains ip t = true -> has_upper ip = true -> has_upper t = true.
Proof.
  induction t as [| b r IH]; intros Hc Hu.
  - simpl in Hc. apply (prefix_upper ip "" Hc Hu).
  - change (PyText.contains ip (String b r))
      with (String.prefix ip (String b r) || PyText.contains ip r) in Hc.
    apply orb_true_iff in Hc as [Hc | Hc].
    + apply (prefix_upper ip _ Hc Hu).
    + simpl. rewrite (IH Hc Hu). apply orb_true_r.
Qed.

Lemma lower_no_upper (s : string) : has_upper (PyText.lower s) = false.
Proof.
  induction s as [| c r IH]; simpl; [reflexivity |].
  rewrite lower_char_no_upper, IH. reflexivity.
Qed.

Lemma lstrip_no_upper (s : string) :
  has_upper s = false -> has_upper (PyText.lstrip s) = false.
Proof.
  induction s as [| c r IH]; simpl; [auto |]. intros H.
  destruct (PyText.is_space c); [| exact H].
  apply IH. apply orb_false_iff in H as [_ H]. exact H.
Qed.

Lemma rstrip_no_upper (s : string) :
  has_upper s = false -> has_upper (PyText.rstrip s) = false.
Proof.
  induction s as [| c r IH]; simpl; [auto |]. intros H.
  apply orb_false_iff in H as [Hc Hr]. specialize (IH Hr).
  destruct (PyText.rstrip r); simpl in *.
  - destruct (PyText.is_space c); simpl; [reflexivity |].
    rewrite Hc. reflexivity.
  - rewrite Hc. exact IH.
Qed.

Lemma split_no_upper (sep : ascii) (s : string) :
  has_upper s = false ->
  List.Forall (fun x => has_upper x = false) (PyText.split sep s).
Proof.
  induction s as [| c r IH]; simpl; intros H.
  - repeat constructor.
  - apply orb_false_iff in H as [Hc Hr]. specialize (IH Hr).
    destruct (Ascii.eqb c sep); [constructor; [reflexivity | exact IH] |].
    destruct (PyText.split sep r) as [| h t]; simpl.
    + constructor; [simpl; rewrite Hc; reflexivity | constructor].
    + inversion IH as [| ? ? Hh Ht]; subst.
      constructor; [simpl; rewrite Hc; exact Hh | exact Ht].
Qed.

Lemma last_addr_no_upper (a : string) :
  has_upper a = false -> has_upper (last_addr_of a) = false.
Proof.
  intros H. unfold last_addr_of, csv_items.
  pose proof (split_no_upper "," a H) as F.
  induction F as [| x l Hx _ IH]; simpl; [exact H |].
  destruct (PyText.nonempty (PyText.strip x)) eqn:E; [| exact IH].
  simpl.
  destruct (List.filter PyText.nonempty (List.map PyText.strip l)) eqn:L.
  - unfold PyText.strip. apply rstrip_no_upper, lstrip_no_upper. exact Hx.
  - exact IH.
Qed.

Lemma any_in_upper (ips : list string) (t : string) :
  List.Forall (fun ip => has_upper ip = true) ips ->
  has_upper t = false -> any_in ips t = false.
Proof.
  intros F Ht. induction F as [| ip l Hip _ IH]; simpl; [reflexivity |].
  destruct (PyText.contains ip t) eqn:C; [| exact IH].
  rewrite (contains_upper ip t C Hip) in Ht. discriminate.
Qed.

(** X16.  Known addresses are compared as they are written with an
    address that has been lower-cased: an entry of [BLUE_IPS] or
    [GREEN_IPS] that contains an upper-case letter never matches.
    When every entry has one, the classifier answers as if both lists
    were empty. *)
Theorem capitalised_known_addresses_never_match :
  forall cfg upstream_addr,
    (forall ip, has_upper ip = true ->
                PyText.contains ip
                  (last_addr_of (PyText.lower (py_str upstream_addr))) = false) /\
    (List.Forall (fun ip => has_upper ip = true) (csv_items (blue_ips cfg)) ->
     List.Forall (fun ip => has_upper ip = true) (csv_items (green_ips cfg)) ->
     detect_pool_from_upstream cfg upstream_addr
     = detect_pool_from_upstream (without_known_addresses cfg) upstream_addr).
Proof.
  intros cfg v.
  pose proof (last_addr_no_upper _ (lower_no_upper (py_str v))) as Ht.
  split.
  - intros ip Hip.
    destruct (PyText.contains ip (last_addr_of (PyText.lower (py_str v)))) eqn:C;
      [| reflexivity].
    rewrite (contains_upper _ _ C Hip) in Ht. discriminate.
  - intros Fb Fg. unfold detect_pool_from_upstream. simpl.
    rewrite (any_in_upper _ _ Fb Ht), (any_in_upper _ _ Fg Ht), !andb_false_r.
    reflexivity.
Qed.

Lemma capitalised_known_addresses_never_match_witness :
  PyText.contains "App-One" (last_addr_of (PyText.lower "App-One:3000")) = false /\
  detect_pool_from_upstream capitalised_config (PyStr "App-One:3000") = PyNone.
Proof.
  destruct (capitalised_known_addresses_never_match capitalised_config
              (PyStr "App-One:3000")) as [never dead].
  split.
  - apply never. reflexivity.
  - rewrite dead; [reflexivity | |]; repeat constructor.
Defined.

(** ** The first cooldown *)

Lemma stable_not_before_cooldown cfg env alert_type (stamp : Watcher -> Q) :
  0 <= alert_cooldown cfg ->
  (alert_type = "failover" /\ stamp = last_failover_alert \/
   alert_type = "error_rate" /\ stamp = last_error_rate_alert) ->
  stable cfg env
    (fun w => Forall (fun t => (inject_Z (alert_cooldown cfg) <= t)%Q)
                     (alert_times alert_type (trace w)) /\
              (0 <= stamp (self w))%Q).
Proof.
  intros Hc Hty.
  assert (H0 : (0 <= inject_Z (alert_cooldown cfg))%Q)
    by (change 0%Q with (inject_Z 0); rewrite <- Zle_Qle; exact Hc).
  unfold stable. repeat apply conj.
  - intros w H. destruct Hty as [[-> ->] | [-> ->]]; exact H.
  - intros b w H. destruct Hty as [[-> ->] | [-> ->]]; exact H.
  - intros w [F S]. simpl. rewrite alert_times_tick.
    destruct Hty as [[-> ->] | [-> ->]]; split; assumption.
  - intros pool w [F S] C. simpl. rewrite alert_times_alert.
    destruct Hty as [[-> ->] | [-> ->]]; simpl in *.
    + split; [| lra]. apply Forall_app. split; [exact F |].
      constructor; [lra | constructor].
    + split; assumption.
  - intros rate w [F S] _ C. simpl. rewrite alert_times_alert.
    destruct Hty as [[-> ->] | [-> ->]]; simpl in *.
    + split; assumption.
    + split; [| lra]. apply Forall_app. split; [exact F |].
      constructor; [lra | constructor].
Qed.

(** X17.  Both timestamps start at 0, so with a cooldown that is not
    negative no detector alerts before one cooldown has passed since
    instant 0 of the clock: every alert of every run comes at a clock
    reading of at least [alert_cooldown]. *)
Theorem no_alert_before_the_first_cooldown :
  forall cfg env lines alert_type,
    0 <= alert_cooldown cfg ->
    alert_type = "failover" \/ alert_type = "error_rate" ->
    Forall (fun t => (inject_Z (alert_cooldown cfg) <= t)%Q)
           (alert_times alert_type (trace (snd (main cfg env lines)))).
Proof.
  intros cfg env lines alert_type Hc Hty.
  destruct Hty as [-> | ->].
  - apply (main_invariant cfg env
             (fun w => Forall (fun t => (inject_Z (alert_cooldown cfg) <= t)%Q)
                              (alert_times "failover" (trace w)) /\
                       (0 <= last_failover_alert (self w))%Q)).
    + split; [constructor | simpl; lra].
    + apply (stable_not_before_cooldown cfg env "failover" last_failover_alert Hc).
      left. split; reflexivity.
  - apply (main_invariant cfg env
             (fun w => Forall (fun t => (inject_Z (alert_cooldown cfg) <= t)%Q)
                              (alert_times "error_rate" (trace w)) /\
                       (0 <= last_error_rate_alert (self w))%Q)).
    + split; [constructor | simpl; lra].
    + apply (stable_not_before_cooldown cfg env "error_rate"
               last_error_rate_alert Hc).
      right. split; reflexivity.
Qed.

Lemma no_alert_before_the_first_cooldown_witness :
  Forall (fun t => (inject_Z (alert_cooldown slack_config) <= t)%Q)
         (alert_times "failover"
            (trace (snd (main slack_config steady_env sample_log)))).
Proof.
  apply (no_alert_before_the_first_cooldown slack_config steady_env sample_log).
  - discriminate.
  - left. reflexivity.
Defined.
